(** * Bot-Helper: the file organizer of [bot_helper/sort_files.py]

    A shallow embedding of the class [FileOrganizer] and of [main], and the
    properties of the specification proved (or refuted) on it.

    Conventions of the embedding.
    - A Python [str] is a list of Unicode code points ([pystr]).
    - A [pathlib.Path] is the list of its components below the file-system
      root ([path]); textual parsing of a path, [.] and [..] and symbolic
      links are outside the model.
    - The disk is a tree of regular files and directories ([node]).
    - A method is a function of the world (disk, standard output, the
      sequence of mutating system calls made so far) that returns normally
      or raises ([M]).
    - An instance is its attribute dictionary ([gmap string value]).
    - The third-party functions ([transliterate.translit],
      [shutil.unpack_archive], [rarfile.RarFile.extractall]) and the
      non-ASCII part of [str.lower] are parameters of the development. *)

From Stdlib Require Import NArith ZArith List Lia Bool SpecFloat.
From stdpp Require Import gmap strings list.

Set Default Proof Using "Type".

(** ** Python strings *)

Definition pystr := list N.

Definition py (s : string) : pystr :=
  map (fun a => Ascii.N_of_ascii a) (String.list_ascii_of_string s).
Arguments py s%_string.

Definition is_upper (c : N) : bool := (65 <=? c)%N && (c <=? 90)%N.
Definition is_lower (c : N) : bool := (97 <=? c)%N && (c <=? 122)%N.
Definition is_digit (c : N) : bool := (48 <=? c)%N && (c <=? 57)%N.

(** The character class [[a-zA-Z0-9]] of the regular expression. *)
Definition is_alnum (c : N) : bool := is_lower c || is_upper c || is_digit c.

Definition underscore : N := 95.
Definition dot : N := 46.

(** [[A-Za-z0-9_]] and [[a-z0-9_]]. *)
Definition is_word_char (c : N) : bool := is_alnum c || (c =? underscore)%N.
Definition is_token_char (c : N) : bool :=
  is_lower c || is_digit c || (c =? underscore)%N.

Definition ascii_lower (c : N) : N := if is_upper c then (c + 32)%N else c.

(** [re.sub(r'[^a-zA-Z0-9]', '_', s)]: one replacement per character. *)
Definition re_sub_non_alnum (s : pystr) : pystr :=
  map (fun c => if is_alnum c then c else underscore) s.

(** [str.rfind(c)]. *)
Fixpoint rfind (c : N) (s : pystr) : option nat :=
  match s with
  | [] => None
  | x :: t =>
      match rfind c t with
      | Some i => Some (S i)
      | None => if (x =? c)%N then Some 0 else None
      end
  end.

(** [PurePath.suffix] and [PurePath.stem] of a final component:
    [i = name.rfind('.')]; the suffix is [name[i:]] when
    [0 < i < len(name) - 1], and empty otherwise. *)
Definition suffix_index (name : pystr) : option nat :=
  match rfind dot name with
  | Some i => if (0 <? i) && (i <? length name - 1) then Some i else None
  | None => None
  end.

Definition suffix (name : pystr) : pystr :=
  match suffix_index name with
  | Some i => drop i name
  | None => []
  end.

Definition stem (name : pystr) : pystr :=
  match suffix_index name with
  | Some i => take i name
  | None => name
  end.

(** ** The disk *)

Definition path := list pystr.

(** [Path.parent] and [Path.name]. *)
Definition parent (p : path) : path := List.removelast p.
Definition name (p : path) : pystr := List.last p [].

(** [str(path)]: the components, each after a separator. *)
Definition path_str (p : path) : pystr :=
  match p with
  | [] => py "/"
  | _ => concat (map (fun n => py "/" ++ n) p)
  end.

#[warnings="-register-all"]
Inductive node :=
| File (data : list Byte.byte)
| Dir (entries : list (pystr * node)).

Fixpoint find_entry (n : pystr) (es : list (pystr * node)) : option node :=
  match es with
  | [] => None
  | (m, c) :: rest => if decide (m = n) then Some c else find_entry n rest
  end.

Fixpoint put_entry (n : pystr) (c : node) (es : list (pystr * node))
  : list (pystr * node) :=
  match es with
  | [] => [(n, c)]
  | (m, x) :: rest =>
      if decide (m = n) then (m, c) :: rest else (m, x) :: put_entry n c rest
  end.

Fixpoint remove_entry (n : pystr) (es : list (pystr * node))
  : list (pystr * node) :=
  match es with
  | [] => []
  | (m, x) :: rest =>
      if decide (m = n) then remove_entry n rest
      else (m, x) :: remove_entry n rest
  end.

Definition on_dir (f : list (pystr * node) -> list (pystr * node)) (t : node)
  : node :=
  match t with
  | Dir es => Dir (f es)
  | File d => File d
  end.

Fixpoint fs_lookup (p : path) (t : node) : option node :=
  match p with
  | [] => Some t
  | n :: q =>
      match t with
      | Dir es =>
          match find_entry n es with
          | Some c => fs_lookup q c
          | None => None
          end
      | File _ => None
      end
  end.

(** The error of a failed path resolution: [ENOTDIR] when a component on
    the way is a regular file, [ENOENT] when it is missing. *)
Fixpoint lookup_error (p : path) (t : node) : bool :=
  match p with
  | [] => false
  | n :: q =>
      match t with
      | Dir es =>
          match find_entry n es with
          | Some c => lookup_error q c
          | None => false
          end
      | File _ => true
      end
  end.

(** Apply [f] to the subtree at [p], when there is one. *)
Fixpoint modify (p : path) (f : node -> node) (t : node) : node :=
  match p with
  | [] => f t
  | n :: q =>
      match t with
      | Dir es =>
          match find_entry n es with
          | Some c => Dir (put_entry n (modify q f c) es)
          | None => t
          end
      | File _ => t
      end
  end.

Definition fs_put (p : path) (c : node) (t : node) : node :=
  match p with
  | [] => c
  | _ => modify (parent p) (on_dir (put_entry (name p) c)) t
  end.

Definition fs_remove (p : path) (t : node) : node :=
  match p with
  | [] => t
  | _ => modify (parent p) (on_dir (remove_entry (name p))) t
  end.

(** Every directory holds at most one entry per name. *)
Fixpoint well_formed (t : node) : Prop :=
  match t with
  | File _ => True
  | Dir es =>
      NoDup (map fst es) /\
      (fix all (l : list (pystr * node)) : Prop :=
         match l with
         | [] => True
         | (_, c) :: r => well_formed c /\ all r
         end) es
  end.

Fixpoint height (t : node) : nat :=
  match t with
  | File _ => 0
  | Dir es =>
      S ((fix hmax (l : list (pystr * node)) : nat :=
            match l with
            | [] => 0
            | (_, c) :: r => Nat.max (height c) (hmax r)
            end) es)
  end.

(** [Path.glob("**/<pattern>")], taken on the tree as it is when the loop
    starts: the entries of the starting directory whose name matches, then
    the same for each of its subdirectories in turn. [pathlib] produces the
    paths from a generator that reads a directory when it reaches it, so a
    loop that writes below the start while it iterates may be handed paths
    that were not there at the call; the list here is the one of the disk
    at the call. *)
Fixpoint glob_rec (matches : pystr -> bool) (here : path) (t : node)
  : list path :=
  match t with
  | File _ => []
  | Dir es =>
      map (fun e => here ++ [e.1]) (List.filter (fun e => matches e.1) es)
      ++ (fix subdirs (l : list (pystr * node)) : list path :=
            match l with
            | [] => []
            | (n, c) :: r => glob_rec matches (here ++ [n]) c ++ subdirs r
            end) es
  end.

(** [fnmatch] against ["*"] and against ["*.*"]. *)
Definition match_any (n : pystr) : bool := true.
Definition match_dotted (n : pystr) : bool := bool_decide (dot ∈ n).

(** ** Exceptions, the world and the monad of methods *)

Inductive exn :=
| AttributeError (attribute : string)
| TypeError
| FileNotFoundError
| FileExistsError
| NotADirectoryError
| IsADirectoryError
| OSError
| ReadError (msg : pystr)     (* shutil.ReadError *)
| RarError (msg : pystr)      (* rarfile.Error *)
| OtherError (msg : pystr).

Inductive event :=
| EvMkdir (p : path)
| EvReplace (src dst : path)
| EvUnlink (p : path)
| EvRmdir (p : path)
| EvExtract (archive into : path).

#[global] Instance event_eq_dec : EqDecision event.
Proof. solve_decision. Defined.

Record world := World {
  disk : node;
  stdout : list pystr;
  syscalls : list event
}.

Inductive outcome (A : Type) :=
| Returns (a : A) (w : world)
| Raises (e : exn) (w : world)
| OutOfFuel.
Arguments Returns {A} a w.
Arguments Raises {A} e w.
Arguments OutOfFuel {A}.

Definition M (A : Type) : Type := world -> outcome A.

Definition ret {A} (a : A) : M A := fun w => Returns a w.
Definition raise {A} (e : exn) : M A := fun w => Raises e w.
Definition out_of_fuel {A} : M A := fun _ => OutOfFuel.

Definition bind {A B} (m : M A) (k : A -> M B) : M B :=
  fun w =>
    match m w with
    | Returns a w' => k a w'
    | Raises e w' => Raises e w'
    | OutOfFuel => OutOfFuel
    end.

Notation "'let*' x ':=' c1 'in' c2" := (bind c1 (fun x => c2))
  (at level 10, x name, c1 at level 100, c2 at level 200).
Notation "c1 '>>' c2" := (bind c1 (fun _ => c2))
  (at level 65, right associativity).

(** [try: body / except <handled>: ...]: [handler e] is the except clause
    that catches [e], if any. *)
Definition try_except {A} (body : M A) (handler : exn -> option (M A)) : M A :=
  fun w =>
    match body w with
    | Raises e w' =>
        match handler e with
        | Some h => h w'
        | None => Raises e w'
        end
    | r => r
    end.

Fixpoint for_each {A} (l : list A) (body : A -> M unit) : M unit :=
  match l with
  | [] => ret tt
  | x :: rest => body x >> for_each rest body
  end.

Definition print (line : pystr) : M unit :=
  fun w => Returns tt (World (disk w) (stdout w ++ [line]) (syscalls w)).

Definition set_disk (t : node) (ev : event) (w : world) : world :=
  World t (stdout w) (syscalls w ++ [ev]).

(** ** The file-system calls of [pathlib] and [os] *)

Definition path_exists (p : path) : M bool :=
  fun w => Returns (bool_decide (is_Some (fs_lookup p (disk w)))) w.

Definition is_dir (p : path) : M bool :=
  fun w =>
    Returns (match fs_lookup p (disk w) with Some (Dir _) => true | _ => false end) w.

Definition is_file (p : path) : M bool :=
  fun w =>
    Returns (match fs_lookup p (disk w) with Some (File _) => true | _ => false end) w.

(** [os.mkdir]. *)
Definition os_mkdir (p : path) : M unit :=
  fun w =>
    match fs_lookup p (disk w) with
    | Some _ => Raises FileExistsError w
    | None =>
        match fs_lookup (parent p) (disk w) with
        | Some (Dir _) => Returns tt (set_disk (fs_put p (Dir []) (disk w)) (EvMkdir p) w)
        | Some (File _) => Raises NotADirectoryError w
        | None =>
            if lookup_error p (disk w) then Raises NotADirectoryError w
            else Raises FileNotFoundError w
        end
    end.

(** [Path.mkdir(parents=False, exist_ok=...)]: an [OSError] other than
    [FileNotFoundError] is swallowed when [exist_ok] and the path is a
    directory. *)
Definition mkdir_here (exist_ok : bool) (p : path) : M unit :=
  try_except (os_mkdir p)
    (fun e =>
       match e with
       | FileNotFoundError => None
       | _ =>
           Some (let* d := is_dir p in
                 if negb exist_ok || negb d then raise e else ret tt)
       end).

(** [Path.mkdir(parents, exist_ok)], by recursion on the reversed path:
    on [FileNotFoundError] with [parents], the parent is made with
    [parents=True, exist_ok=True] and the directory is made again. *)
Fixpoint mkdir_rev (parents exist_ok : bool) (rp : list pystr) : M unit :=
  try_except (os_mkdir (rev rp))
    (fun e =>
       match e with
       | FileNotFoundError =>
           match rp with
           | [] => None
           | _ :: rparent =>
               if parents
               then Some (mkdir_rev true true rparent >> mkdir_here exist_ok (rev rp))
               else None
           end
       | _ =>
           Some (let* d := is_dir (rev rp) in
                 if negb exist_ok || negb d then raise e else ret tt)
       end).

Definition mkdir (parents exist_ok : bool) (p : path) : M unit :=
  mkdir_rev parents exist_ok (rev p).

(** [Path.replace] ([os.replace], that is [rename(2)]). *)
Definition os_replace (src dst : path) : M unit :=
  fun w =>
    match fs_lookup src (disk w) with
    | None =>
        if lookup_error src (disk w) then Raises NotADirectoryError w
        else Raises FileNotFoundError w
    | Some n =>
        if decide (src = dst) then Returns tt w
        else if bool_decide (src `prefix_of` dst) then
          match n with
          | File _ => Raises NotADirectoryError w
          | Dir _ => Raises OSError w
          end
        else
          match fs_lookup (parent dst) (disk w) with
          | Some (Dir _) =>
              let moved :=
                set_disk (fs_put dst n (fs_remove src (disk w))) (EvReplace src dst) w in
              match fs_lookup dst (disk w), n with
              | None, _ => Returns tt moved
              | Some (File _), File _ => Returns tt moved
              | Some (Dir []), Dir _ => Returns tt moved
              | Some (Dir (_ :: _)), Dir _ => Raises OSError w
              | Some (Dir _), File _ => Raises IsADirectoryError w
              | Some (File _), Dir _ => Raises NotADirectoryError w
              end
          | Some (File _) => Raises NotADirectoryError w
          | None =>
              if lookup_error dst (disk w) then Raises NotADirectoryError w
              else Raises FileNotFoundError w
          end
    end.

(** [Path.unlink]. *)
Definition unlink (p : path) : M unit :=
  fun w =>
    match fs_lookup p (disk w) with
    | Some (File _) => Returns tt (set_disk (fs_remove p (disk w)) (EvUnlink p) w)
    | Some (Dir _) => Raises IsADirectoryError w
    | None =>
        if lookup_error p (disk w) then Raises NotADirectoryError w
        else Raises FileNotFoundError w
    end.

(** [Path.rmdir]. *)
Definition rmdir (p : path) : M unit :=
  fun w =>
    match fs_lookup p (disk w) with
    | Some (Dir []) =>
        match p with
        | [] => Raises OSError w
        | _ => Returns tt (set_disk (fs_remove p (disk w)) (EvRmdir p) w)
        end
    | Some (Dir (_ :: _)) => Raises OSError w
    | Some (File _) => Raises NotADirectoryError w
    | None =>
        if lookup_error p (disk w) then Raises NotADirectoryError w
        else Raises FileNotFoundError w
    end.

(** [Path.iterdir]: the children of a directory, listed at the call. *)
Definition iterdir (p : path) : M (list path) :=
  fun w =>
    match fs_lookup p (disk w) with
    | Some (Dir es) => Returns (map (fun e => p ++ [e.1]) es) w
    | Some (File _) => Raises NotADirectoryError w
    | None =>
        if lookup_error p (disk w) then Raises NotADirectoryError w
        else Raises FileNotFoundError w
    end.

(** [Path.glob("**/<pattern>")]: nothing when the start is no directory. *)
Definition glob (start : path) (matches : pystr -> bool) : M (list path) :=
  fun w =>
    match fs_lookup start (disk w) with
    | Some t => Returns (glob_rec matches start t) w
    | None => Returns [] w
    end.

(** What a decoder did: the content of the extraction directory when it
    stopped, and the exception it stopped with, if any. *)
Record extraction := Extraction {
  extracted : list (pystr * node);
  failure : option exn
}.

(** A decoder reads the disk and writes below the extraction directory. *)
Definition run_decoder (decoder : node -> path -> path -> extraction)
    (archive into : path) : M unit :=
  fun w =>
    let r := decoder (disk w) archive into in
    let w' := set_disk (modify into (on_dir (fun _ => extracted r)) (disk w))
                (EvExtract archive into) w in
    match failure r with
    | None => Returns tt w'
    | Some e => Raises e w'
    end.

(** ** Instances *)

Inductive value :=
| VPath (p : path)
| VCategories (table : list (pystr * list pystr)).

Abbreviation instance := (gmap string value).

Definition getattr (self : instance) (attribute : string) : M value :=
  match self !! attribute with
  | Some v => ret v
  | None => raise (AttributeError attribute)
  end.

Definition get_path (self : instance) (attribute : string) : M path :=
  let* v := getattr self attribute in
  match v with
  | VPath p => ret p
  | VCategories _ => raise TypeError
  end.

Definition get_table (self : instance) (attribute : string)
  : M (list (pystr * list pystr)) :=
  let* v := getattr self attribute in
  match v with
  | VCategories t => ret t
  | VPath _ => raise TypeError
  end.

(** The dictionary literal of the constructor, in its order. *)
Definition categories : list (pystr * list pystr) :=
  [ (py "Audio", [py ".mp3"; py ".wav"; py ".ogg"; py ".amr"]);
    (py "Docs", [py ".doc"; py ".docx"; py ".txt"; py ".pdf"; py ".xlsx"; py ".pptx"]);
    (py "Images", [py ".jpeg"; py ".png"; py ".jpg"; py ".svg"]);
    (py "Video", [py ".avi"; py ".mp4"; py ".mov"; py ".mkv"]);
    (py "Archives", [py ".zip"; py ".gz"; py ".tar"; py ".rar"]) ].

(** [FileOrganizer.__init__]: the three attributes it assigns. *)
Definition FileOrganizer_init (source_folder destination_folder : path)
  : instance :=
  <["categories" := VCategories categories]>
    (<["destination_folder" := VPath destination_folder]>
       (<["source_folder" := VPath source_folder]> ∅)).

(** The call of the class on its arguments: [__init__] has two required
    positional parameters besides [self] and no default. *)
Definition FileOrganizer (args : list path) : M instance :=
  match args with
  | [source_folder; destination_folder] =>
      ret (FileOrganizer_init source_folder destination_folder)
  | _ => raise TypeError
  end.

(** ** JSON values

    What [json.load] returns: [JNull] is [None], an object is a [dict]
    (its items in order), a number is an [int] or a binary64 [float]. *)

Inductive json_number :=
| JInt (z : Z)
| JFloat (f : spec_float).

#[warnings="-register-all"]
Inductive json :=
| JNull
| JBool (b : bool)
| JNumber (x : json_number)
| JString (s : pystr)
| JArray (items : list json)
| JObject (items : list (pystr * json)).

(** The truth value of a number: it is not zero. *)
Definition number_truthy (x : json_number) : bool :=
  match x with
  | JInt z => negb (z =? 0)%Z
  | JFloat (S754_zero _) => false
  | JFloat _ => true
  end.

(** The truth value Python gives to a value in [if data:]. *)
Definition truthy (v : json) : bool :=
  match v with
  | JNull => false
  | JBool b => b
  | JNumber x => number_truthy x
  | JString s => match s with [] => false | _ :: _ => true end
  | JArray items => match items with [] => false | _ :: _ => true end
  | JObject items => match items with [] => false | _ :: _ => true end
  end.

(** The outcome of [json.load] on the content of a file. *)
Inductive load_result :=
| Loaded (v : json)
| Malformed                  (* json.JSONDecodeError *)
| LoadRaises (e : exn).      (* any other exception *)

(** ** Sample parameters and disks

    The parameters are instantiated with sample functions: a lower-casing
    that leaves the characters outside ASCII alone, a transliteration of a
    few Ukrainian letters, and decoders that fail after writing one
    file. *)

Definition sample_lower : pystr -> N -> pystr -> pystr := fun _ c _ => [c].

Definition sample_translit_char (c : N) : pystr :=
  if (c =? 1087)%N then py "p"
  else if (c =? 1110)%N then py "i"
  else if (c =? 1089)%N then py "s"
  else if (c =? 1085)%N then py "n"
  else if (c =? 1103)%N then py "ja"
  else [c].

Definition sample_translit (s : pystr) : pystr :=
  concat (map sample_translit_char s).

Definition failing_unpack : node -> path -> path -> extraction :=
  fun _ _ _ =>
    Extraction [(py "part.txt", File [])] (Some (ReadError (py "not a zip file"))).

Definition failing_rar : node -> path -> path -> extraction :=
  fun _ _ _ =>
    Extraction [(py "part.txt", File [])] (Some (RarError (py "not a rar file"))).

(** The five letters of the sample transliteration, a space and [.MP3]. *)
Definition song_name : pystr :=
  [1087; 1110; 1089; 1085; 1103; 32; 49]%N ++ py ".MP3".

Definition music_world : world :=
  World
    (Dir [(py "home",
           Dir [(song_name, File []);
                (py "Audio", Dir [(py "old.mp3", File [])]);
                (py "empty", Dir [(py "inner", Dir [])]);
                (py "Archives", Dir [(py "bad.zip", File [])])])])
    [] [].

(** Sample JSON functions and a sample bot: the empty file is malformed,
    any other file holds one record. *)
Definition sample_json_load (data : list Byte.byte) : load_result :=
  match data with
  | [] => Malformed
  | _ :: _ => Loaded (JObject [(py "name", JString (py "Ann"))])
  end.

Definition sample_json_dumps (v : json) : pystr :=
  match v with
  | JString s => py "'" ++ s ++ py "'"
  | _ => py "{...}"
  end.

Definition sample_bot_main : M unit := print (py "bot started").

Definition bot_world : world :=
  World
    (Dir [(py "home",
           Dir [(py "notes_data.json", File [Byte.x7b; Byte.x7d]);
                (py "data", Dir [])])])
    [] [].

(** A decoder that extracts one file, and one that stops with an
    exception of another class. *)
Definition working_unpack : node -> path -> path -> extraction :=
  fun _ _ _ => Extraction [(py "a.txt", File [])] None.

Definition crashing_unpack : node -> path -> path -> extraction :=
  fun _ _ _ => Extraction [] (Some (OtherError (py "BadZipFile"))).

(** A disk where the category path [Docs] is a regular file, and one where
    [address_book.json] is a directory. *)
Definition clash_world : world :=
  World
    (Dir [(py "home", Dir [(py "a.txt", File []); (py "Docs", File [])])])
    [] [].

Definition broken_bot_world : world :=
  World (Dir [(py "home", Dir [(py "address_book.json", Dir [])])]) [] [].

(** A disk with a song to move and a file to keep. *)
Definition song_world : world :=
  World
    (Dir [(py "home",
           Dir [(py "My Song.MP3", File []); (py "keep.txt", File [])])])
    [] [].



(** ** The parameters, and the text normalizer *)

Section Organizer.

(** [str.lower] on a character outside ASCII, given the characters before
    and after it (the Unicode case mapping may expand a character and
    depends on context for the final sigma). *)
Variable unicode_lower : pystr -> N -> pystr -> pystr.

(** [transliterate.translit(text, 'uk', reversed=True)]. *)
Variable translit : pystr -> pystr.

Fixpoint lower_from (before s : pystr) : pystr :=
  match s with
  | [] => []
  | c :: rest =>
      (if (c <? 128)%N then [ascii_lower c] else unicode_lower before c rest)
        ++ lower_from (before ++ [c]) rest
  end.

(** [str.lower()]. *)
Definition lower (s : pystr) : pystr := lower_from [] s.

(** [FileOrganizer.normalize]. *)
Definition normalize (text : pystr) : pystr :=
  let transliterated_text := translit text in
  let normalized_text := re_sub_non_alnum transliterated_text in
  lower normalized_text.

(** ** The methods of [FileOrganizer] *)

(** The loop of [get_category] over [self.categories.items()]. *)
Fixpoint first_category (ext : pystr) (items : list (pystr * list pystr))
  : pystr :=
  match items with
  | [] => py "Other"
  | (cat, exts) :: rest =>
      if bool_decide (ext ∈ exts) then cat else first_category ext rest
  end.

Definition get_category (self : instance) (file : path) : M pystr :=
  let ext := lower (suffix (name file)) in
  let* items := get_table self "categories" in
  ret (first_category ext items).

Definition move_file (self : instance) (file : path) (category : pystr)
  : M unit :=
  let* destination_folder := get_path self "destination_folder" in
  let target_dir := destination_folder ++ [category] in
  let* present := path_exists target_dir in
  (if negb present then mkdir true false target_dir else ret tt) >>
  let new_filename := normalize (stem (name file)) ++ suffix (name file) in
  let new_path := target_dir ++ [new_filename] in
  let* taken := path_exists new_path in
  if negb taken then os_replace file new_path else ret tt.

(** [shutil.unpack_archive(archive, extract_dir)] and
    [rarfile.RarFile(archive).extractall(extract_dir)]. *)
Variable unpack_archive : node -> path -> path -> extraction.
Variable rar_extractall : node -> path -> path -> extraction.

Fixpoint remove_empty_folders (fuel : nat) (self : instance)
    (root_path : option path) : M unit :=
  match fuel with
  | 0 => out_of_fuel
  | S fuel' =>
      let* root_path :=
        match root_path with
        | None => get_path self "root_dir"
        | Some p => ret p
        end in
      let* children := iterdir root_path in
      for_each children (fun folder_path =>
        let* d := is_dir folder_path in
        if d then
          remove_empty_folders fuel' self (Some folder_path) >>
          let* remaining := iterdir folder_path in
          match remaining with
          | [] => rmdir folder_path
          | _ :: _ => ret tt
          end
        else ret tt)
  end.

(** The body of the [try] statement, for one path of the glob. *)
Definition extract_body (archive_dir archive_path : path) : M unit :=
  let archive_name := stem (name archive_path) in
  let archive_subdir := archive_dir ++ [archive_name] in
  mkdir false true archive_subdir >>
  if bool_decide (lower (suffix (name archive_path)) = py ".rar") then
    run_decoder rar_extractall archive_path archive_subdir >>
    unlink archive_path
  else if bool_decide (lower (suffix (name archive_path))
                         ∈ [py ".zip"; py ".gz"; py ".tar"]) then
    run_decoder unpack_archive archive_path archive_subdir >>
    unlink archive_path
  else ret tt.

(** One iteration: the [try] statement with its [except] clause. *)
Definition extract_step (archive_dir archive_path : path) : M unit :=
  try_except (extract_body archive_dir archive_path)
    (fun e =>
       let report msg :=
         print (py "Error extracting " ++ path_str archive_path ++ py ": " ++ msg) >>
         print (py "Skipping file: " ++ path_str archive_path) in
       match e with
       | ReadError msg => Some (report msg)
       | RarError msg => Some (report msg)
       | _ => None
       end).

(** The [for] loop, on the paths the glob yields. *)
Definition extract_loop (archive_dir : path) (candidates : list path) : M unit :=
  for_each candidates (extract_step archive_dir).

Definition extract_and_move_archives (self : instance) : M unit :=
  let* root_dir := get_path self "root_dir" in
  let archive_dir := root_dir ++ [py "Archives"] in
  let* root_dir' := get_path self "root_dir" in
  let* candidates := glob root_dir' match_dotted in
  extract_loop archive_dir candidates.

Definition organize_files (self : instance) : M unit :=
  let* source_folder := get_path self "source_folder" in
  let* elements := glob source_folder match_any in
  for_each elements (fun element =>
    let* f := is_file element in
    if f then
      let* category := get_category self element in
      move_file self element category
    else ret tt).

Definition organize (fuel : nat) (self : instance) : M unit :=
  organize_files self >>
  extract_and_move_archives self >>
  remove_empty_folders fuel self None >>
  print (py "All ok").

(** [main], on the value of [args.path]. A [Path] is made of any string,
    so the handler of [ValueError] has nothing to catch. *)
Definition main (fuel : nat) (path_argument : path) : M unit :=
  let path := path_argument in
  let* present := path_exists path in
  if negb present then
    print (py "Error: Folder does not exist")
  else
    let* organizer := FileOrganizer [path] in
    organize fuel organizer.

(** ** The console application of [bot_app.py] *)

(** [json.load(file)] on the bytes of the file (with the decoding of the
    text), [json.dumps(data, indent=2)], the entry point of the bot (module
    [bot_helper.bot]) and the working directory of the process. *)
Variable json_load : list Byte.byte -> load_result.
Variable json_dumps : json -> pystr.
Variable bot_main : M unit.
Variable cwd : path.

(** [open(file_path, 'r')], read to the end. *)
Definition open_read (file_path : path) : M (list Byte.byte) :=
  fun w =>
    match fs_lookup file_path (disk w) with
    | Some (File data) => Returns data w
    | Some (Dir _) => Raises IsADirectoryError w
    | None =>
        if lookup_error file_path (disk w) then Raises NotADirectoryError w
        else Raises FileNotFoundError w
    end.

(** [JSONDataLoader.load_data]: the [except] clause names
    [FileNotFoundError] and [json.JSONDecodeError]. *)
Definition JSONDataLoader_load_data (file_path : path) : M json :=
  try_except
    (let* content := open_read file_path in
     match json_load content with
     | Loaded data => ret data
     | Malformed => ret JNull
     | LoadRaises e => raise e
     end)
    (fun e =>
       match e with
       | FileNotFoundError => Some (ret JNull)
       | _ => None
       end).

(** [ConsoleInformationPresenter.present_information]. *)
Definition ConsoleInformationPresenter_present_information
    (data_type : pystr) (data : json) : M unit :=
  if truthy data then
    print (data_type ++ py ":" ++ [10%N] ++ json_dumps data)
  else
    print (data_type ++ py " is empty.").

(** [ConsoleUserInterface.show_information]. *)
Definition ConsoleUserInterface_show_information (information : pystr)
  : M unit :=
  print information.

(** [ExtendedBot.run], on the presenters and the loader of the instance
    ([ExtendedBot.load_data] hands the path to the loader). *)
Definition ExtendedBot_run
    (information_presenters : list (pystr -> json -> M unit))
    (data_loader : path -> M json) : M unit :=
  let* address_book_data := data_loader (cwd ++ [py "address_book.json"]) in
  let* notes_data := data_loader (cwd ++ [py "notes_data.json"]) in
  for_each information_presenters (fun present_information =>
    present_information (py "Address Book") address_book_data >>
    present_information (py "Notes") notes_data >>
    present_information (py "Available Commands")
      (JString (py "help - all commands"))) >>
  bot_main.

(** The script: one console presenter and the JSON loader. *)
Definition bot_app_main : M unit :=
  ExtendedBot_run [ConsoleInformationPresenter_present_information]
    JSONDataLoader_load_data.

(** The line the console presenter prints. *)
Definition console_line (data_type : pystr) (data : json) : pystr :=
  if truthy data then data_type ++ py ":" ++ [10%N] ++ json_dumps data
  else data_type ++ py " is empty.".

(** ** Definitions used in the statements *)

Definition is_ascii (c : N) : bool := (c <? 128)%N.

Definition silent {A} (m : M A) : Prop :=
  forall w,
    match m w with
    | Returns _ w' => stdout w' = stdout w
    | Raises _ w' => stdout w' = stdout w
    | OutOfFuel => False
    end.

(** The world of the failing run of [main]: a directory [/home] that
    holds one file. *)
Definition home_world : world :=
  World (Dir [(py "home", Dir [(py "song.mp3", File [])])]) [] [].

Definition final_world {A} (o : outcome A) : option world :=
  match o with
  | Returns _ w => Some w
  | Raises _ w => Some w
  | OutOfFuel => None
  end.

(** The decoder the suffix selects, if any. *)
Definition decoder_of (ext : pystr)
  : option (node -> path -> path -> extraction) :=
  if bool_decide (ext = py ".rar") then Some rar_extractall
  else if bool_decide (ext ∈ [py ".zip"; py ".gz"; py ".tar"])
       then Some unpack_archive
       else None.


(** A disk with an empty [Archives] directory and one text document. *)
Definition docs_world : world :=
  World
    (Dir [(py "home",
           Dir [(py "Archives", Dir []);
                (py "Docs", Dir [(py "report.txt", File [])])])])
    [] [].

(** What the pruner leaves of a tree: every directory below the top whose
    pruned listing is empty is dropped; and the directories it removes, in
    the order of the calls. *)
Fixpoint pruned (t : node) : node :=
  match t with
  | File d => File d
  | Dir es =>
      Dir ((fix go (l : list (pystr * node)) : list (pystr * node) :=
              match l with
              | [] => []
              | (n, c) :: r =>
                  match c with
                  | File _ => (n, c) :: go r
                  | Dir _ =>
                      match pruned c with
                      | Dir [] => go r
                      | c' => (n, c') :: go r
                      end
                  end
              end) es)
  end.

Fixpoint pruned_entries (l : list (pystr * node)) : list (pystr * node) :=
  match l with
  | [] => []
  | (n, c) :: r =>
      match c with
      | File _ => (n, c) :: pruned_entries r
      | Dir _ =>
          match pruned c with
          | Dir [] => pruned_entries r
          | c' => (n, c') :: pruned_entries r
          end
      end
  end.

Fixpoint removed (here : path) (t : node) : list path :=
  match t with
  | File _ => []
  | Dir es =>
      (fix go (l : list (pystr * node)) : list path :=
         match l with
         | [] => []
         | (n, c) :: r =>
             match c with
             | File _ => go r
             | Dir _ =>
                 removed (here ++ [n]) c
                 ++ match pruned c with
                    | Dir [] => [here ++ [n]]
                    | _ => []
                    end
                 ++ go r
             end
         end) es
  end.

Fixpoint removed_entries (here : path) (l : list (pystr * node)) : list path :=
  match l with
  | [] => []
  | (n, c) :: r =>
      match c with
      | File _ => removed_entries here r
      | Dir _ =>
          removed (here ++ [n]) c
          ++ match pruned c with
             | Dir [] => [here ++ [n]]
             | _ => []
             end
          ++ removed_entries here r
      end
  end.

(** The body of the loop of [remove_empty_folders]. *)
Definition prune_body (fuel : nat) (self : instance) (folder_path : path)
  : M unit :=
  let* d := is_dir folder_path in
  if d then
    remove_empty_folders fuel self (Some folder_path) >>
    let* remaining := iterdir folder_path in
    match remaining with
    | [] => rmdir folder_path
    | _ :: _ => ret tt
    end
  else ret tt.

(** The result of a run of the pruner on the directory at [r]. *)
Definition pruned_world (r : path) (es : list (pystr * node)) (w : world)
  : world :=
  World (modify r (fun _ => Dir (pruned_entries es)) (disk w)) (stdout w)
    (syscalls w ++ map EvRmdir (removed_entries r es)).

(** The log of removals: children first. *)
Fixpoint children_first (l : list path) : Prop :=
  match l with
  | [] => True
  | p :: later => Forall (fun q => ~ p `prefix_of` q) later /\ children_first later
  end.

(** The system calls that move: [mkdir] and [replace]. *)
Definition is_move_event (ev : event) : bool :=
  match ev with
  | EvMkdir _ => true
  | EvReplace _ _ => true
  | _ => false
  end.

(** A method that ends, prints nothing and calls only [mkdir] and
    [replace]. *)
Definition moves_only {A} (m : M A) : Prop :=
  forall w,
    match final_world (m w) with
    | Some w' =>
        stdout w' = stdout w
        /\ exists evs, syscalls w' = syscalls w ++ evs
                       /\ Forall (fun ev => is_move_event ev = true) evs
    | None => False
    end.

(** * Properties *)

(** ** Text normalizer *)

Ltac char_cases :=
  unfold ascii_lower, is_word_char, is_token_char, is_alnum in *;
  unfold is_lower, is_upper, is_digit, is_ascii, underscore in *;
  repeat match goal with
         | |- context [(?a <=? ?b)%N] => destruct (N.leb_spec a b)
         | |- context [(?a <? ?b)%N] => destruct (N.ltb_spec a b)
         | |- context [(?a =? ?b)%N] => destruct (N.eqb_spec a b)
         | H : context [(?a <=? ?b)%N] |- _ => destruct (N.leb_spec a b)
         | H : context [(?a <? ?b)%N] |- _ => destruct (N.ltb_spec a b)
         | H : context [(?a =? ?b)%N] |- _ => destruct (N.eqb_spec a b)
         end;
  simpl in *; try reflexivity; try discriminate; try lia.

Lemma ascii_lower_ascii (c : N) :
  is_ascii (ascii_lower c) = true -> is_ascii c = true.
Proof. intros H. char_cases. Qed.

Lemma lower_from_ascii (before s : pystr) :
  Forall (fun c => is_ascii c = true) s ->
  lower_from before s = map ascii_lower s.
Proof.
  intros H. revert before.
  induction H as [|c s Hc _ IH]; intros before; simpl; [reflexivity|].
  unfold is_ascii in Hc. rewrite Hc. simpl. f_equal. apply IH.
Qed.

Lemma lower_ascii (s : pystr) :
  Forall (fun c => is_ascii c = true) s -> lower s = map ascii_lower s.
Proof. apply lower_from_ascii. Qed.

Lemma word_char_ascii (c : N) : is_word_char c = true -> is_ascii c = true.
Proof. intros H. char_cases. Qed.

Lemma token_char_word (c : N) : is_token_char c = true -> is_word_char c = true.
Proof. intros H. char_cases. Qed.

Lemma sub_char_word (c : N) :
  is_word_char (if is_alnum c then c else underscore) = true.
Proof.
  destruct (is_alnum c) eqn:H.
  - unfold is_word_char. rewrite H. reflexivity.
  - reflexivity.
Qed.

Lemma lower_word_token (c : N) :
  is_word_char c = true -> is_token_char (ascii_lower c) = true.
Proof. intros H. char_cases. Qed.

Lemma lower_token_id (c : N) : is_token_char c = true -> ascii_lower c = c.
Proof. intros H. char_cases. Qed.

Lemma sub_word_id (c : N) :
  is_word_char c = true -> (if is_alnum c then c else underscore) = c.
Proof.
  unfold is_word_char. destruct (is_alnum c); simpl; [reflexivity|].
  intros H. apply N.eqb_eq in H. auto.
Qed.

Lemma re_sub_word (s : pystr) :
  Forall (fun c => is_word_char c = true) (re_sub_non_alnum s).
Proof.
  unfold re_sub_non_alnum. apply Forall_forall. intros c Hc.
  apply list_elem_of_fmap in Hc as (x & -> & _). apply sub_char_word.
Qed.

Lemma re_sub_word_id (s : pystr) :
  Forall (fun c => is_word_char c = true) s -> re_sub_non_alnum s = s.
Proof.
  induction 1 as [|c s Hc _ IH]; simpl; [reflexivity|].
  rewrite (sub_word_id c Hc). f_equal. exact IH.
Qed.

(** What [normalize] computes, character by character. *)
Lemma normalize_pointwise (text : pystr) :
  normalize text
  = map (fun c => if is_alnum c then ascii_lower c else underscore)
      (translit text).
Proof.
  unfold normalize. rewrite lower_ascii.
  - unfold re_sub_non_alnum. rewrite map_map. apply map_ext. intros c.
    destruct (is_alnum c); reflexivity.
  - eapply Forall_impl; [apply re_sub_word|]. apply word_char_ascii.
Qed.

Lemma normalize_token (text : pystr) :
  Forall (fun c => is_token_char c = true) (normalize text).
Proof.
  unfold normalize. rewrite lower_ascii.
  - apply Forall_forall. intros c Hc.
    apply list_elem_of_fmap in Hc as (x & -> & Hx).
    apply lower_word_token.
    pose proof (re_sub_word (translit text)) as H.
    rewrite Forall_forall in H. auto.
  - eapply Forall_impl; [apply re_sub_word|]. apply word_char_ascii.
Qed.

(** C8. [normalize] is a function of its argument alone, defined on every
    string; its result holds only characters of [[a-z0-9_]]; each character
    of the transliterated text yields exactly one character, an underscore
    when it is outside [[A-Za-z0-9]] and its lower case otherwise, so
    nothing is collapsed; and the empty string yields the empty string
    (the transliteration of the empty string being empty). *)
Theorem normalize_total_token (text : pystr) :
  Forall (fun c => is_token_char c = true) (normalize text)
  /\ normalize text
     = map (fun c => if is_alnum c then ascii_lower c else underscore)
         (translit text)
  /\ length (normalize text) = length (translit text)
  /\ (translit [] = [] -> normalize [] = []).
Proof.
  split; [apply normalize_token|].
  split; [apply normalize_pointwise|].
  split.
  - rewrite normalize_pointwise. apply length_map.
  - intros H. rewrite normalize_pointwise, H. reflexivity.
Qed.

Lemma normalize_fixes_tokens (t : pystr) :
  (forall u, Forall (fun c => is_word_char c = true) u -> translit u = u) ->
  Forall (fun c => is_token_char c = true) t ->
  normalize t = t.
Proof.
  intros Hlatin Ht.
  assert (Hw : Forall (fun c => is_word_char c = true) t)
    by (eapply Forall_impl; [exact Ht|]; apply token_char_word).
  unfold normalize. rewrite (Hlatin t Hw), (re_sub_word_id t Hw).
  rewrite lower_ascii
    by (eapply Forall_impl; [exact Hw|]; apply word_char_ascii).
  clear Hw. induction Ht as [|c t Hc _ IH]; simpl; [reflexivity|].
  rewrite (lower_token_id c Hc). f_equal. exact IH.
Qed.

(** C9. On a string of ASCII letters, digits and underscores, normalizing
    twice is normalizing once, the transliteration leaving such strings as
    they are. *)
Theorem normalize_idempotent (s : pystr) :
  (forall u, Forall (fun c => is_word_char c = true) u -> translit u = u) ->
  Forall (fun c => is_word_char c = true) s ->
  normalize (normalize s) = normalize s.
Proof.
  intros Hlatin _. apply normalize_fixes_tokens; [exact Hlatin|].
  apply normalize_token.
Qed.

(** ** Instances and their attributes *)

Lemma init_categories (s d : path) :
  FileOrganizer_init s d !! "categories" = Some (VCategories categories).
Proof. unfold FileOrganizer_init. apply lookup_insert_eq. Qed.

Lemma init_destination_folder (s d : path) :
  FileOrganizer_init s d !! "destination_folder" = Some (VPath d).
Proof.
  unfold FileOrganizer_init.
  rewrite lookup_insert_ne by discriminate. apply lookup_insert_eq.
Qed.

Lemma init_source_folder (s d : path) :
  FileOrganizer_init s d !! "source_folder" = Some (VPath s).
Proof.
  unfold FileOrganizer_init.
  do 2 (rewrite lookup_insert_ne by discriminate). apply lookup_insert_eq.
Qed.

(** The constructor assigns no attribute [root_dir]. *)
Lemma init_root_dir (s d : path) : FileOrganizer_init s d !! "root_dir" = None.
Proof.
  unfold FileOrganizer_init.
  do 3 (rewrite lookup_insert_ne by discriminate). apply lookup_empty.
Qed.

Lemma get_path_root_dir (s d : path) (w : world) :
  get_path (FileOrganizer_init s d) "root_dir" w
  = Raises (AttributeError "root_dir") w.
Proof. unfold get_path, getattr, bind. rewrite init_root_dir. reflexivity. Qed.

(** ** Category classifier *)

Lemma get_category_init (s d file : path) (w : world) :
  get_category (FileOrganizer_init s d) file w
  = Returns (first_category (lower (suffix (name file))) categories) w.
Proof.
  unfold get_category, get_table, getattr, bind.
  rewrite init_categories. reflexivity.
Qed.

Lemma first_category_other (ext : pystr) (items : list (pystr * list pystr)) :
  (forall cat exts, (cat, exts) ∈ items -> ext ∉ exts) ->
  first_category ext items = py "Other".
Proof.
  induction items as [|[cat exts] rest IH]; intros H; simpl; [reflexivity|].
  rewrite bool_decide_eq_false_2 by (apply (H cat); left).
  apply IH. intros c e Hin. apply (H c). right. exact Hin.
Qed.

(** In the table of the constructor no extension stands under two
    names, so the first name found is the name of the list. *)
Lemma first_category_found (ext cat : pystr) (exts : list pystr) :
  (cat, exts) ∈ categories -> ext ∈ exts ->
  first_category ext categories = cat.
Proof.
  unfold categories. intros Hcat Hext.
  repeat (apply elem_of_cons in Hcat as [Hcat|Hcat];
          [injection Hcat as -> ->;
           repeat (apply elem_of_cons in Hext as [->|Hext]; [reflexivity|]);
           apply elem_of_nil in Hext; contradiction|]).
  apply elem_of_nil in Hcat. contradiction.
Qed.

Lemma categories_ascii (cat : pystr) (exts : list pystr) (e : pystr) :
  (cat, exts) ∈ categories -> e ∈ exts ->
  Forall (fun c => is_ascii c = true) e.
Proof.
  unfold categories. intros Hcat Hext.
  repeat (apply elem_of_cons in Hcat as [Hcat|Hcat];
          [injection Hcat as -> ->;
           repeat (apply elem_of_cons in Hext as [->|Hext];
                   [repeat constructor|]);
           apply elem_of_nil in Hext; contradiction|]).
  apply elem_of_nil in Hcat. contradiction.
Qed.

Lemma ascii_lower_all_ascii (s : pystr) :
  Forall (fun c => is_ascii c = true) (map ascii_lower s) ->
  Forall (fun c => is_ascii c = true) s.
Proof.
  induction s as [|c s IH]; simpl; intros H; [constructor|].
  inversion H; subst. constructor; [apply ascii_lower_ascii|]; auto.
Qed.

(** C3. For an organizer made by the constructor: a file whose lowercased
    extension stands in the list of a category is given that category,
    whatever the case of the letters of the extension; a file whose
    lowercased extension stands in no list, and a file without extension,
    are given [Other]. *)
Theorem get_category_by_extension (s d file : path) (w : world) :
  let self := FileOrganizer_init s d in
  (forall cat exts,
      (cat, exts) ∈ categories ->
      lower (suffix (name file)) ∈ exts ->
      get_category self file w = Returns cat w)
  /\ (forall cat exts e,
         (cat, exts) ∈ categories -> e ∈ exts ->
         map ascii_lower (suffix (name file)) = e ->
         get_category self file w = Returns cat w)
  /\ ((forall cat exts,
          (cat, exts) ∈ categories -> lower (suffix (name file)) ∉ exts) ->
      get_category self file w = Returns (py "Other") w)
  /\ (suffix (name file) = [] ->
      get_category self file w = Returns (py "Other") w).
Proof.
  intros self. subst self. rewrite get_category_init.
  split; [|split; [|split]].
  - intros cat exts Hcat Hext. f_equal.
    eapply first_category_found; eauto.
  - intros cat exts e Hcat He Hlow. f_equal.
    apply (first_category_found _ cat exts); [exact Hcat|].
    rewrite lower_ascii; [rewrite Hlow; exact He|].
    apply ascii_lower_all_ascii. rewrite Hlow.
    eapply categories_ascii; eauto.
  - intros H. f_equal. apply first_category_other. exact H.
  - intros H. rewrite H. reflexivity.
Qed.

(** ** Methods that print nothing and use no fuel *)

Lemma silent_ret {A} (a : A) : silent (ret a).
Proof. intros w. reflexivity. Qed.

Lemma silent_raise {A} (e : exn) : silent (@raise A e).
Proof. intros w. reflexivity. Qed.

Lemma silent_bind {A B} (m : M A) (k : A -> M B) :
  silent m -> (forall a, silent (k a)) -> silent (bind m k).
Proof.
  intros Hm Hk w. unfold bind. specialize (Hm w).
  destruct (m w) as [a w'|e w'|]; try assumption.
  specialize (Hk a w'). destruct (k a w'); congruence.
Qed.

Lemma silent_try_except {A} (body : M A) (handler : exn -> option (M A)) :
  silent body ->
  (forall e h, handler e = Some h -> silent h) ->
  silent (try_except body handler).
Proof.
  intros Hb Hh w. unfold try_except. specialize (Hb w).
  destruct (body w) as [a w'|e w'|]; try assumption.
  destruct (handler e) as [h|] eqn:E; [|assumption].
  specialize (Hh e h E w'). destruct (h w'); congruence.
Qed.

Lemma silent_for_each {A} (l : list A) (body : A -> M unit) :
  (forall x, silent (body x)) -> silent (for_each l body).
Proof.
  intros H. induction l as [|x l IH]; simpl.
  - apply silent_ret.
  - apply silent_bind; auto.
Qed.

Ltac silent_primitive :=
  let w := fresh "w" in
  intros w; cbv beta delta [path_exists is_dir is_file os_mkdir os_replace
                              unlink rmdir iterdir glob set_disk];
  repeat (simpl;
          match goal with
          | |- context [match ?x with _ => _ end] =>
              lazymatch x with
              | context [match _ with _ => _ end] => fail
              | _ => destruct x
              end
          end);
  reflexivity.

Lemma silent_path_exists (p : path) : silent (path_exists p).
Proof. silent_primitive. Qed.

Lemma silent_is_dir (p : path) : silent (is_dir p).
Proof. silent_primitive. Qed.

Lemma silent_is_file (p : path) : silent (is_file p).
Proof. silent_primitive. Qed.

Lemma silent_os_mkdir (p : path) : silent (os_mkdir p).
Proof. silent_primitive. Qed.

Lemma silent_os_replace (src dst : path) : silent (os_replace src dst).
Proof. silent_primitive. Qed.

Lemma silent_glob (p : path) (f : pystr -> bool) : silent (glob p f).
Proof. silent_primitive. Qed.

Lemma silent_getattr (self : instance) (a : string) : silent (getattr self a).
Proof.
  unfold getattr. destruct (self !! a); [apply silent_ret|apply silent_raise].
Qed.

Lemma silent_get_path (self : instance) (a : string) : silent (get_path self a).
Proof.
  unfold get_path. apply silent_bind; [apply silent_getattr|].
  intros []; [apply silent_ret|apply silent_raise].
Qed.

Lemma silent_get_table (self : instance) (a : string) : silent (get_table self a).
Proof.
  unfold get_table. apply silent_bind; [apply silent_getattr|].
  intros []; [apply silent_raise|apply silent_ret].
Qed.

Lemma silent_mkdir_tail (exist_ok : bool) (p : path) (e : exn) :
  silent (let* d := is_dir p in
          if negb exist_ok || negb d then raise e else @ret unit tt).
Proof.
  apply silent_bind; [apply silent_is_dir|].
  intros d. destruct (negb exist_ok || negb d);
    [apply silent_raise|apply silent_ret].
Qed.

Lemma silent_mkdir_here (exist_ok : bool) (p : path) :
  silent (mkdir_here exist_ok p).
Proof.
  unfold mkdir_here. apply silent_try_except; [apply silent_os_mkdir|].
  intros e h H.
  destruct e; try discriminate; injection H as <-; apply silent_mkdir_tail.
Qed.

Lemma silent_mkdir_rev (parents exist_ok : bool) (rp : list pystr) :
  silent (mkdir_rev parents exist_ok rp).
Proof.
  revert parents exist_ok.
  induction rp as [|n rp IH]; intros parents exist_ok; simpl;
    (apply silent_try_except; [apply silent_os_mkdir|]);
    intros e h H;
    destruct e; try discriminate;
    try (injection H as <-; apply silent_mkdir_tail).
  destruct parents; [|discriminate]. injection H as <-.
  apply silent_bind; [apply IH|]. intros _. apply silent_mkdir_here.
Qed.

Lemma silent_move_file (self : instance) (file : path) (category : pystr) :
  silent (move_file self file category).
Proof.
  unfold move_file.
  apply silent_bind; [apply silent_get_path|]. intros d.
  apply silent_bind; [apply silent_path_exists|]. intros present.
  apply silent_bind.
  - destruct (negb present); [apply silent_mkdir_rev|apply silent_ret].
  - intros _. apply silent_bind; [apply silent_path_exists|]. intros taken.
    destruct (negb taken); [apply silent_os_replace|apply silent_ret].
Qed.

Lemma silent_get_category (self : instance) (file : path) :
  silent (get_category self file).
Proof.
  unfold get_category. apply silent_bind; [apply silent_get_table|].
  intros items. apply silent_ret.
Qed.

Lemma silent_organize_files (self : instance) : silent (organize_files self).
Proof.
  unfold organize_files.
  apply silent_bind; [apply silent_get_path|]. intros src.
  apply silent_bind; [apply silent_glob|]. intros elements.
  apply silent_for_each. intros element.
  apply silent_bind; [apply silent_is_file|]. intros f.
  destruct f; [|apply silent_ret].
  apply silent_bind; [apply silent_get_category|]. intros c.
  apply silent_move_file.
Qed.

(** ** The pipeline and the entry point *)

Lemma extract_and_move_archives_init (s d : path) (w : world) :
  extract_and_move_archives (FileOrganizer_init s d) w
  = Raises (AttributeError "root_dir") w.
Proof.
  unfold extract_and_move_archives, bind. rewrite get_path_root_dir.
  reflexivity.
Qed.

Lemma remove_empty_folders_default_init (fuel : nat) (s d : path) (w : world) :
  remove_empty_folders (S fuel) (FileOrganizer_init s d) None w
  = Raises (AttributeError "root_dir") w.
Proof. simpl. unfold bind. rewrite get_path_root_dir. reflexivity. Qed.

(** C2. The constructor assigns no attribute [root_dir]; on the instance
    it makes, the archive expander and the pruner with its default argument
    raise [AttributeError] at once; so [organize] raises [AttributeError]
    as soon as the file-moving phase has returned, in the world that phase
    left (nothing extracted, nothing pruned), never returns and never
    prints. *)
Theorem organize_raises_attribute_error (fuel : nat) (s d : path) (w : world) :
  let self := FileOrganizer_init s d in
  self !! "root_dir" = None
  /\ extract_and_move_archives self w = Raises (AttributeError "root_dir") w
  /\ remove_empty_folders (S fuel) self None w
     = Raises (AttributeError "root_dir") w
  /\ organize fuel self w
     = match organize_files self w with
       | Returns _ w' => Raises (AttributeError "root_dir") w'
       | Raises e w' => Raises e w'
       | OutOfFuel => OutOfFuel
       end
  /\ (forall w', organize fuel self w <> Returns tt w')
  /\ (exists e w', organize fuel self w = Raises e w'
                   /\ stdout w' = stdout w
                   /\ (organize_files self w = Returns tt w' ->
                       e = AttributeError "root_dir")).
Proof.
  intros self. subst self.
  assert (Heq : organize fuel (FileOrganizer_init s d) w
                = match organize_files (FileOrganizer_init s d) w with
                  | Returns _ w' => Raises (AttributeError "root_dir") w'
                  | Raises e w' => Raises e w'
                  | OutOfFuel => OutOfFuel
                  end).
  { unfold organize, bind.
    destruct (organize_files (FileOrganizer_init s d) w) as [a w'|e w'|];
      [|reflexivity..].
    rewrite extract_and_move_archives_init. reflexivity. }
  split; [apply init_root_dir|].
  split; [apply extract_and_move_archives_init|].
  split; [apply remove_empty_folders_default_init|].
  split; [exact Heq|].
  pose proof (silent_organize_files (FileOrganizer_init s d) w) as Hs.
  rewrite Heq.
  destruct (organize_files (FileOrganizer_init s d) w) as [a w'|e w'|];
    [| |contradiction].
  - split; [discriminate|].
    exists (AttributeError "root_dir"), w'. auto.
  - split; [discriminate|].
    exists e, w'. repeat split; [exact Hs|discriminate].
Qed.

Lemma main_outcome (fuel : nat) (p : path) (w : world) :
  main fuel p w
  = match fs_lookup p (disk w) with
    | Some _ => Raises TypeError w
    | None =>
        Returns tt
          (World (disk w)
             (stdout w ++ [py "Error: Folder does not exist"]) (syscalls w))
    end.
Proof.
  unfold main, bind, path_exists.
  destruct (fs_lookup p (disk w)) as [t|].
  - rewrite bool_decide_eq_true_2 by eauto. reflexivity.
  - rewrite bool_decide_eq_false_2 by (intros [? ?]; discriminate).
    reflexivity.
Qed.

(** C1. Run on the existing directory [/home], [main] calls the
    constructor with one argument and raises [TypeError]: no organizer is
    made, nothing is moved and nothing is printed; run on a missing path it
    prints the error line and returns. *)
Theorem main_existing_directory_raises (fuel : nat) :
  main fuel [py "home"] home_world = Raises TypeError home_world
  /\ main fuel [py "away"] home_world
     = Returns tt
         (World (disk home_world) [py "Error: Folder does not exist"] []).
Proof. rewrite !main_outcome. split; reflexivity. Qed.

(** ** Laws of the disk *)

Lemma find_entry_put_eq (n : pystr) (c : node) (es : list (pystr * node)) :
  find_entry n (put_entry n c es) = Some c.
Proof.
  induction es as [|[m x] es IH]; simpl.
  - rewrite decide_True by reflexivity. reflexivity.
  - destruct (decide (m = n)) as [->|Hne]; simpl.
    + rewrite decide_True by reflexivity. reflexivity.
    + rewrite decide_False by exact Hne. exact IH.
Qed.

Lemma find_entry_put_ne (m n : pystr) (c : node) (es : list (pystr * node)) :
  m <> n -> find_entry m (put_entry n c es) = find_entry m es.
Proof.
  intros Hmn. induction es as [|[k x] es IH]; simpl.
  - rewrite decide_False by congruence. reflexivity.
  - destruct (decide (k = n)) as [->|Hne]; simpl.
    + rewrite !decide_False by congruence. reflexivity.
    + destruct (decide (k = m)); [reflexivity|exact IH].
Qed.

Lemma find_entry_remove_eq (n : pystr) (es : list (pystr * node)) :
  find_entry n (remove_entry n es) = None.
Proof.
  induction es as [|[m x] es IH]; simpl; [reflexivity|].
  destruct (decide (m = n)) as [->|Hne]; simpl; [exact IH|].
  rewrite decide_False by exact Hne. exact IH.
Qed.

Lemma find_entry_remove_ne (m n : pystr) (es : list (pystr * node)) :
  m <> n -> find_entry m (remove_entry n es) = find_entry m es.
Proof.
  intros Hmn. induction es as [|[k x] es IH]; simpl; [reflexivity|].
  destruct (decide (k = n)) as [->|Hne]; simpl.
  - rewrite decide_False by congruence. exact IH.
  - destruct (decide (k = m)); [reflexivity|exact IH].
Qed.

Lemma fs_lookup_app (p q : path) (t : node) :
  fs_lookup (p ++ q) t
  = match fs_lookup p t with
    | Some c => fs_lookup q c
    | None => None
    end.
Proof.
  revert t. induction p as [|n p IH]; intros t; simpl; [reflexivity|].
  destruct t as [data|es]; [reflexivity|].
  destruct (find_entry n es); [apply IH|reflexivity].
Qed.

Lemma fs_lookup_file_below (n : pystr) (r : path) (data : list Byte.byte) :
  fs_lookup (n :: r) (File data) = None.
Proof. reflexivity. Qed.

(** The subtree at a prefix of the modified path. *)
Lemma fs_lookup_modify_above (q r : path) (f : node -> node) (t : node) :
  fs_lookup q (modify (q ++ r) f t) = modify r f <$> fs_lookup q t.
Proof.
  revert t. induction q as [|n q IH]; intros t; simpl; [reflexivity|].
  destruct t as [data|es]; simpl; [reflexivity|].
  destruct (find_entry n es) as [c|] eqn:E; simpl.
  - rewrite find_entry_put_eq. apply IH.
  - rewrite E. reflexivity.
Qed.

(** The subtree at an extension of the modified path. *)
Lemma fs_lookup_modify_below (p r : path) (f : node -> node) (t : node) :
  fs_lookup (p ++ r) (modify p f t)
  = match fs_lookup p t with
    | Some c => fs_lookup r (f c)
    | None => None
    end.
Proof.
  rewrite fs_lookup_app.
  rewrite <- (app_nil_r p) at 2. rewrite fs_lookup_modify_above.
  destruct (fs_lookup p t); reflexivity.
Qed.

(** The subtree at a path that leaves the modified path. *)
Lemma fs_lookup_modify_aside (c : path) (a b : pystr) (p q : path)
    (f : node -> node) (t : node) :
  a <> b ->
  fs_lookup (c ++ b :: q) (modify (c ++ a :: p) f t) = fs_lookup (c ++ b :: q) t.
Proof.
  intros Hab. revert t. induction c as [|n c IH]; intros t; simpl.
  - destruct t as [data|es]; [reflexivity|].
    destruct (find_entry a es) as [x|]; simpl; [|reflexivity].
    rewrite find_entry_put_ne by congruence. reflexivity.
  - destruct t as [data|es]; [reflexivity|].
    destruct (find_entry n es) as [x|] eqn:E; simpl.
    + rewrite find_entry_put_eq. apply IH.
    + rewrite E. reflexivity.
Qed.

(** Two paths: one continues the other, or they part at some component. *)
Lemma path_trichotomy (p q : path) :
  (exists r, q = p ++ r)
  \/ (exists r, p = q ++ r)
  \/ (exists c a b p' q', a <> b /\ p = c ++ a :: p' /\ q = c ++ b :: q').
Proof.
  revert q. induction p as [|a p IH]; intros q.
  - left. exists q. reflexivity.
  - destruct q as [|b q].
    + right. left. exists (a :: p). reflexivity.
    + destruct (decide (a = b)) as [->|Hab].
      * destruct (IH q) as [[r ->]|[[r ->]|(c & x & y & p' & q' & H & -> & ->)]].
        -- left. exists r. reflexivity.
        -- right. left. exists r. reflexivity.
        -- right. right. exists (b :: c), x, y, p', q'. auto.
      * right. right. exists [], a, b, p, q. auto.
Qed.

Lemma modify_below_file (n : pystr) (r : path) (f : node -> node)
    (data : list Byte.byte) :
  modify (n :: r) f (File data) = File data.
Proof. reflexivity. Qed.

(** [modify] with a function on directory listings keeps files files and
    directories directories. *)
Lemma modify_on_dir_file (p : path) (g : list (pystr * node) -> list (pystr * node))
    (data : list Byte.byte) :
  modify p (on_dir g) (File data) = File data.
Proof. destruct p; reflexivity. Qed.

Lemma modify_on_dir_dir (p : path) (g : list (pystr * node) -> list (pystr * node))
    (es : list (pystr * node)) :
  exists es', modify p (on_dir g) (Dir es) = Dir es'.
Proof.
  destruct p as [|n p]; simpl; [eauto|].
  destruct (find_entry n es); eauto.
Qed.

Lemma parent_snoc (p : path) (n : pystr) : parent (p ++ [n]) = p.
Proof. apply removelast_last. Qed.

Lemma name_snoc (p : path) (n : pystr) : name (p ++ [n]) = n.
Proof. apply last_last. Qed.

Lemma path_snoc (p : path) : p <> [] -> p = parent p ++ [name p].
Proof. intros H. apply app_removelast_last. exact H. Qed.

Lemma fs_put_snoc (p : path) (n : pystr) (c t : node) :
  fs_put (p ++ [n]) c t = modify p (on_dir (put_entry n c)) t.
Proof.
  unfold fs_put. rewrite parent_snoc, name_snoc.
  destruct p; reflexivity.
Qed.

Lemma fs_remove_snoc (p : path) (n : pystr) (t : node) :
  fs_remove (p ++ [n]) t = modify p (on_dir (remove_entry n)) t.
Proof.
  unfold fs_remove. rewrite parent_snoc, name_snoc.
  destruct p; reflexivity.
Qed.

(** A regular file is no ancestor of a directory. *)
Lemma file_not_above_dir (f q : path) (t : node) (data : list Byte.byte)
    (es : list (pystr * node)) :
  fs_lookup f t = Some (File data) ->
  fs_lookup q t = Some (Dir es) ->
  ~ f `prefix_of` q.
Proof.
  intros Hf Hq [r ->]. rewrite fs_lookup_app, Hf in Hq.
  destruct r; discriminate.
Qed.

(** The entry removed is gone. *)
Lemma fs_lookup_remove_same (p : path) (n : pystr) (t : node) :
  fs_lookup (p ++ [n]) (modify p (on_dir (remove_entry n)) t) = None.
Proof.
  rewrite fs_lookup_modify_below.
  destruct (fs_lookup p t) as [[data|es]|]; simpl; try reflexivity.
  rewrite find_entry_remove_eq. reflexivity.
Qed.

(** Removing a regular file leaves every directory a directory. *)
Lemma fs_lookup_remove_dir (p : path) (n : pystr) (q : path) (t : node)
    (data : list Byte.byte) (es : list (pystr * node)) :
  fs_lookup (p ++ [n]) t = Some (File data) ->
  fs_lookup q t = Some (Dir es) ->
  exists es', fs_lookup q (modify p (on_dir (remove_entry n)) t) = Some (Dir es').
Proof.
  intros Hf Hq.
  destruct (path_trichotomy p q)
    as [[r ->]|[[r ->]|(c & a & b & p' & q' & Hab & -> & ->)]].
  - rewrite fs_lookup_modify_below.
    rewrite fs_lookup_app in Hf, Hq.
    destruct (fs_lookup p t) as [[d0|es0]|]; try discriminate.
    destruct r as [|m r]; simpl in *.
    + injection Hq as <-. eauto.
    + destruct (decide (m = n)) as [->|Hmn].
      * destruct (find_entry n es0) as [x|]; [|discriminate].
        injection Hf as ->. destruct r; discriminate.
      * rewrite find_entry_remove_ne by exact Hmn. eauto.
  - rewrite fs_lookup_modify_above, Hq. simpl.
    destruct (modify_on_dir_dir r (remove_entry n) es) as [es' ->]. eauto.
  - rewrite fs_lookup_modify_aside by exact Hab. eauto.
Qed.

(** Adding an entry under a fresh name leaves every regular file. *)
Lemma fs_lookup_put_fresh_file (p : path) (n : pystr) (c : node) (q : path)
    (t : node) (data : list Byte.byte) :
  fs_lookup (p ++ [n]) t = None ->
  fs_lookup q t = Some (File data) ->
  fs_lookup q (modify p (on_dir (put_entry n c)) t) = Some (File data).
Proof.
  intros Hn Hq.
  destruct (path_trichotomy p q)
    as [[r ->]|[[r ->]|(x & a & b & p' & q' & Hab & -> & ->)]].
  - rewrite fs_lookup_modify_below.
    rewrite fs_lookup_app in Hn, Hq.
    destruct (fs_lookup p t) as [[d0|es0]|]; try discriminate.
    + destruct r; [exact Hq|discriminate].
    + destruct r as [|m r]; simpl in *; [discriminate|].
      destruct (decide (m = n)) as [->|Hmn].
      * destruct (find_entry n es0); discriminate.
      * rewrite find_entry_put_ne by exact Hmn. exact Hq.
  - rewrite fs_lookup_modify_above, Hq. simpl.
    rewrite modify_on_dir_file. reflexivity.
  - rewrite fs_lookup_modify_aside by exact Hab. exact Hq.
Qed.

(** Putting a regular file creates no other path. *)
Lemma fs_lookup_put_file_other (p : path) (n : pystr) (data : list Byte.byte)
    (q : path) (t : node) :
  fs_lookup q t = None ->
  q <> p ++ [n] ->
  fs_lookup q (modify p (on_dir (put_entry n (File data))) t) = None.
Proof.
  intros Hq Hne.
  destruct (path_trichotomy p q)
    as [[r ->]|[[r ->]|(x & a & b & p' & q' & Hab & -> & ->)]].
  - rewrite fs_lookup_modify_below.
    rewrite fs_lookup_app in Hq.
    destruct (fs_lookup p t) as [[d0|es0]|]; try reflexivity.
    + destruct r; [discriminate|reflexivity].
    + destruct r as [|m r]; simpl in *; [discriminate|].
      destruct (decide (m = n)) as [->|Hmn].
      * rewrite find_entry_put_eq.
        destruct r; [exfalso; apply Hne; reflexivity|reflexivity].
      * rewrite find_entry_put_ne by exact Hmn. exact Hq.
  - rewrite fs_lookup_modify_above, Hq. reflexivity.
  - rewrite fs_lookup_modify_aside by exact Hab. exact Hq.
Qed.

Lemma lookup_some_decide (p : path) (t x : node) :
  fs_lookup p t = Some x -> bool_decide (is_Some (fs_lookup p t)) = true.
Proof. intros H. apply bool_decide_eq_true_2. eauto. Qed.

Lemma lookup_none_decide (p : path) (t : node) :
  fs_lookup p t = None -> bool_decide (is_Some (fs_lookup p t)) = false.
Proof.
  intros H. apply bool_decide_eq_false_2. rewrite H. intros [? ?]. discriminate.
Qed.

Lemma stem_suffix (n : pystr) : stem n ++ suffix n = n.
Proof.
  unfold stem, suffix. destruct (suffix_index n).
  - apply take_drop.
  - apply app_nil_r.
Qed.

(** ** File relocator *)

Lemma move_file_init (s d file : path) (category : pystr) (w : world) :
  move_file (FileOrganizer_init s d) file category w
  = (let target_dir := d ++ [category] in
     let* present := path_exists target_dir in
     (if negb present then mkdir true false target_dir else ret tt) >>
     let new_path :=
       target_dir ++ [normalize (stem (name file)) ++ suffix (name file)] in
     let* taken := path_exists new_path in
     if negb taken then os_replace file new_path else ret tt) w.
Proof.
  unfold move_file, get_path, getattr, bind.
  rewrite init_destination_folder. reflexivity.
Qed.

(** C4. When a file stands at the target path
    [destination_folder/category/normalize(stem)+suffix], [move_file]
    returns without raising and leaves the world as it was: the source file
    stays where it is, the target is not written, nothing is printed and
    no system call that changes the disk is made. *)
Theorem move_file_collision_skips (s d file : path) (category : pystr)
    (w : world) :
  is_Some (fs_lookup
             (d ++ [category; normalize (stem (name file)) ++ suffix (name file)])
             (disk w)) ->
  move_file (FileOrganizer_init s d) file category w = Returns tt w.
Proof.
  intros [x Hx]. rewrite move_file_init. cbv zeta.
  change (d ++ [category; normalize (stem (name file)) ++ suffix (name file)])
    with (d ++ [category] ++ [normalize (stem (name file)) ++ suffix (name file)])
    in Hx.
  rewrite app_assoc in Hx.
  unfold bind, path_exists.
  assert (Hdir : is_Some (fs_lookup (d ++ [category]) (disk w))).
  { rewrite fs_lookup_app in Hx.
    destruct (fs_lookup (d ++ [category]) (disk w)); [eauto|discriminate]. }
  rewrite (bool_decide_eq_true_2 _ Hdir). simpl.
  rewrite (lookup_some_decide _ _ _ Hx). reflexivity.
Qed.

Lemma os_mkdir_fresh (p : path) (n : pystr) (es : list (pystr * node))
    (w : world) :
  fs_lookup p (disk w) = Some (Dir es) ->
  fs_lookup (p ++ [n]) (disk w) = None ->
  os_mkdir (p ++ [n]) w
  = Returns tt
      (set_disk (modify p (on_dir (put_entry n (Dir []))) (disk w))
         (EvMkdir (p ++ [n])) w).
Proof.
  intros Hp Hn. unfold os_mkdir. rewrite Hn, parent_snoc, Hp, fs_put_snoc.
  reflexivity.
Qed.

Lemma mkdir_fresh (parents exist_ok : bool) (p : path) (n : pystr)
    (es : list (pystr * node)) (w : world) :
  fs_lookup p (disk w) = Some (Dir es) ->
  fs_lookup (p ++ [n]) (disk w) = None ->
  mkdir parents exist_ok (p ++ [n]) w
  = Returns tt
      (set_disk (modify p (on_dir (put_entry n (Dir []))) (disk w))
         (EvMkdir (p ++ [n])) w).
Proof.
  intros Hp Hn. unfold mkdir. rewrite rev_app_distr. simpl.
  unfold try_except. rewrite rev_involutive.
  rewrite (os_mkdir_fresh p n es w Hp Hn). reflexivity.
Qed.

Lemma prefix_snoc_inv (l1 l2 : path) (x : pystr) :
  l1 `prefix_of` l2 ++ [x] -> l1 = l2 ++ [x] \/ l1 `prefix_of` l2.
Proof.
  intros [k Hk]. destruct (decide (k = [])) as [->|Hne].
  - left. rewrite app_nil_r in Hk. auto.
  - right. destruct (exists_last Hne) as (k' & y & ->).
    rewrite app_assoc in Hk. apply app_inj_tail in Hk as [-> _].
    exists k'. reflexivity.
Qed.

Lemma os_replace_snoc (fp tp : path) (fn tn : pystr) (data : list Byte.byte)
    (es : list (pystr * node)) (w : world) :
  fs_lookup (fp ++ [fn]) (disk w) = Some (File data) ->
  fs_lookup tp (disk w) = Some (Dir es) ->
  fs_lookup (tp ++ [tn]) (disk w) = None ->
  os_replace (fp ++ [fn]) (tp ++ [tn]) w
  = Returns tt
      (set_disk
         (modify tp (on_dir (put_entry tn (File data)))
            (modify fp (on_dir (remove_entry fn)) (disk w)))
         (EvReplace (fp ++ [fn]) (tp ++ [tn])) w).
Proof.
  intros Hf Ht Hn. unfold os_replace. rewrite Hf.
  rewrite decide_False by (intros E; rewrite E, Hn in Hf; discriminate).
  rewrite bool_decide_eq_false_2.
  - rewrite parent_snoc, Ht, Hn, fs_put_snoc, fs_remove_snoc. reflexivity.
  - intros Hpre. apply prefix_snoc_inv in Hpre as [E|Hpre].
    + rewrite E, Hn in Hf. discriminate.
    + exact (file_not_above_dir _ _ _ _ _ Hf Ht Hpre).
Qed.

(** What the move does to the disk, once the category directory stands. *)
Lemma replace_effect_snoc (fp tp : path) (fn tn : pystr) (data : list Byte.byte)
    (es : list (pystr * node)) (t : node) :
  fs_lookup (fp ++ [fn]) t = Some (File data) ->
  fs_lookup tp t = Some (Dir es) ->
  fs_lookup (tp ++ [tn]) t = None ->
  let t' := modify tp (on_dir (put_entry tn (File data)))
              (modify fp (on_dir (remove_entry fn)) t) in
  fs_lookup (tp ++ [tn]) t' = Some (File data)
  /\ fs_lookup (fp ++ [fn]) t' = None.
Proof.
  intros Hf Ht Hn t'. subst t'. split.
  - rewrite fs_lookup_modify_below.
    destruct (fs_lookup_remove_dir fp fn tp t data es Hf Ht) as [es' ->].
    simpl. rewrite find_entry_put_eq. reflexivity.
  - apply fs_lookup_put_file_other.
    + apply fs_lookup_remove_same.
    + intros E. rewrite E, Hn in Hf. discriminate.
Qed.

(** Moving a regular file to a free name of a directory. *)
Lemma os_replace_file (file tp : path) (tn : pystr) (data : list Byte.byte)
    (es : list (pystr * node)) (w : world) :
  file <> [] ->
  fs_lookup file (disk w) = Some (File data) ->
  fs_lookup tp (disk w) = Some (Dir es) ->
  fs_lookup (tp ++ [tn]) (disk w) = None ->
  exists w',
    os_replace file (tp ++ [tn]) w = Returns tt w'
    /\ stdout w' = stdout w
    /\ syscalls w' = syscalls w ++ [EvReplace file (tp ++ [tn])]
    /\ fs_lookup (tp ++ [tn]) (disk w') = Some (File data)
    /\ fs_lookup file (disk w') = None.
Proof.
  intros Hne. rewrite (path_snoc file Hne).
  generalize (parent file) (name file). intros fp fn Hf Ht Hn.
  rewrite (os_replace_snoc fp tp fn tn data es w Hf Ht Hn).
  destruct (replace_effect_snoc fp tp fn tn data es (disk w) Hf Ht Hn)
    as [H1 H2].
  eexists. split; [reflexivity|]. simpl. auto.
Qed.

(** Into a destination that is a directory, a regular file whose target
    name is free is moved. *)
Lemma move_file_into_directory (s d file : path) (category : pystr)
    (w : world) (data : list Byte.byte) (des : list (pystr * node)) :
  let new_filename := normalize (stem (name file)) ++ suffix (name file) in
  fs_lookup file (disk w) = Some (File data) ->
  fs_lookup d (disk w) = Some (Dir des) ->
  (forall x, find_entry category des <> Some (File x)) ->
  fs_lookup (d ++ [category; new_filename]) (disk w) = None ->
  exists w',
    move_file (FileOrganizer_init s d) file category w = Returns tt w'
    /\ fs_lookup (d ++ [category; new_filename]) (disk w') = Some (File data)
    /\ fs_lookup file (disk w') = None
    /\ List.last (syscalls w') (EvUnlink [])
       = EvReplace file (d ++ [category; new_filename])
    /\ stem (name file) ++ suffix (name file) = name file.
Proof.
  intros new_filename Hfile Hd Hcat Hnew.
  assert (Hne : file <> []).
  { intros ->. simpl in Hfile. injection Hfile as Hroot.
    rewrite Hroot in Hd. destruct d; discriminate. }
  change (d ++ [category; new_filename])
    with (d ++ [category] ++ [new_filename]) in *.
  rewrite app_assoc in *.
  rewrite move_file_init. cbv zeta. fold new_filename.
  unfold bind at 1. unfold path_exists at 1.
  assert (Hcatl : fs_lookup (d ++ [category]) (disk w) = find_entry category des).
  { rewrite fs_lookup_app, Hd. simpl.
    destruct (find_entry category des); reflexivity. }
  destruct (find_entry category des) as [[x|ces]|] eqn:Ecat.
  - exfalso. exact (Hcat x eq_refl).
  - (* the category directory stands *)
    rewrite (lookup_some_decide _ _ _ Hcatl). simpl.
    unfold bind, ret, path_exists. rewrite (lookup_none_decide _ _ Hnew). simpl.
    destruct (os_replace_file file (d ++ [category]) new_filename data ces w
                Hne Hfile Hcatl Hnew) as (w' & Hrun & _ & Hsys & H1 & H2).
    exists w'. repeat split; try assumption.
    + rewrite Hsys. apply last_last.
    + apply stem_suffix.
  - (* the category directory is made first *)
    rewrite (lookup_none_decide _ _ Hcatl). simpl.
    unfold bind at 1.
    rewrite (mkdir_fresh true false d category des w Hd Hcatl).
    set (w1 := set_disk _ _ w).
    assert (Hcat1 : fs_lookup (d ++ [category]) (disk w1) = Some (Dir [])).
    { subst w1. simpl. rewrite fs_lookup_modify_below, Hd. simpl.
      rewrite find_entry_put_eq. reflexivity. }
    assert (Hfile1 : fs_lookup file (disk w1) = Some (File data)).
    { subst w1. simpl. apply fs_lookup_put_fresh_file; assumption. }
    assert (Hnew1 : fs_lookup ((d ++ [category]) ++ [new_filename]) (disk w1)
                    = None).
    { rewrite fs_lookup_app, Hcat1. reflexivity. }
    unfold bind, path_exists. rewrite (lookup_none_decide _ _ Hnew1). simpl.
    destruct (os_replace_file file (d ++ [category]) new_filename data [] w1
                Hne Hfile1 Hcat1 Hnew1) as (w' & Hrun & _ & Hsys & H1 & H2).
    exists w'. repeat split; try assumption.
    + rewrite Hsys. apply last_last.
    + apply stem_suffix.
Qed.

Lemma os_mkdir_returns (p : path) (w w1 : world) :
  os_mkdir p w = Returns tt w1 ->
  fs_lookup p (disk w1) = Some (Dir [])
  /\ (forall q data,
         fs_lookup q (disk w) = Some (File data) ->
         fs_lookup q (disk w1) = Some (File data)).
Proof.
  unfold os_mkdir.
  destruct (fs_lookup p (disk w)) eqn:Ep; [discriminate|].
  destruct (fs_lookup (parent p) (disk w)) as [[d|es]|] eqn:Epar;
    try discriminate;
    [|destruct (lookup_error p (disk w)); discriminate].
  intros [= <-].
  assert (Hne : p <> []) by (intros ->; discriminate).
  pose proof (path_snoc p Hne) as Hp.
  set (pp := parent p) in *. set (n := name p) in *. clearbody pp n. subst p.
  cbn [disk set_disk]. rewrite fs_put_snoc. split.
  - rewrite fs_lookup_modify_below, Epar. simpl.
    rewrite find_entry_put_eq. reflexivity.
  - intros q data Hq. apply fs_lookup_put_fresh_file; assumption.
Qed.

Lemma os_mkdir_raises (p : path) (w w0 : world) (e : exn) :
  os_mkdir p w = Raises e w0 -> w0 = w.
Proof.
  unfold os_mkdir.
  destruct (fs_lookup p (disk w)); [intros [= _ <-]; reflexivity|].
  destruct (fs_lookup (parent p) (disk w)) as [[d|es]|];
    try (intros [= _ <-]; reflexivity); try discriminate.
  destruct (lookup_error p (disk w)); intros [= _ <-]; reflexivity.
Qed.

(** What a returning [mkdir] leaves: the directory stands, newly made and
    empty unless [exist_ok], and the regular files are untouched. *)
Lemma mkdir_here_post (exist_ok : bool) (p : path) (w w1 : world) :
  mkdir_here exist_ok p w = Returns tt w1 ->
  (exists es, fs_lookup p (disk w1) = Some (Dir es))
  /\ (exist_ok = false -> fs_lookup p (disk w1) = Some (Dir []))
  /\ (forall q data,
         fs_lookup q (disk w) = Some (File data) ->
         fs_lookup q (disk w1) = Some (File data)).
Proof.
  unfold mkdir_here, try_except.
  destruct (os_mkdir p w) as [[] wa|e wa|] eqn:E; [| |discriminate].
  - intros [= <-]. destruct (os_mkdir_returns p w wa E) as [H1 H2]. eauto.
  - apply os_mkdir_raises in E as ->.
    destruct e; try discriminate; unfold bind, is_dir;
      destruct (fs_lookup p (disk w)) as [[d|es]|] eqn:Ep;
      destruct exist_ok; simpl; try discriminate;
      intros [= <-]; rewrite Ep; repeat split; eauto; discriminate.
Qed.

Lemma mkdir_rev_post (rp : list pystr) :
  forall exist_ok w w1,
    mkdir_rev true exist_ok rp w = Returns tt w1 ->
    (exists es, fs_lookup (rev rp) (disk w1) = Some (Dir es))
    /\ (exist_ok = false -> fs_lookup (rev rp) (disk w1) = Some (Dir []))
    /\ (forall q data,
           fs_lookup q (disk w) = Some (File data) ->
           fs_lookup q (disk w1) = Some (File data)).
Proof.
  induction rp as [|n rp IH]; intros exist_ok w w1 H.
  - apply (mkdir_here_post exist_ok). rewrite <- H. reflexivity.
  - cbn [mkdir_rev] in H. unfold try_except in H.
    destruct (os_mkdir (rev (n :: rp)) w) as [[] wa|e wa|] eqn:E;
      [| |discriminate].
    + injection H as <-.
      destruct (os_mkdir_returns _ w wa E) as [H1 H2]. eauto.
    + pose proof (os_mkdir_raises _ _ _ _ E) as ->.
      destruct e;
        try (apply (mkdir_here_post exist_ok (rev (n :: rp)) w w1);
             unfold mkdir_here, try_except; rewrite E; exact H).
      unfold bind in H.
      destruct (mkdir_rev true true rp w) as [[] wa|e wa|] eqn:Ea;
        try discriminate H.
      destruct (IH true w wa Ea) as (_ & _ & Hfiles).
      destruct (mkdir_here_post exist_ok _ wa w1 H) as (H1 & H2 & H3).
      repeat split; auto.
Qed.

Lemma os_replace_into_file (file tp : path) (tn : pystr)
    (data x : list Byte.byte) (w : world) :
  fs_lookup file (disk w) = Some (File data) ->
  fs_lookup (tp ++ [tn]) (disk w) = None ->
  fs_lookup tp (disk w) = Some (File x) ->
  os_replace file (tp ++ [tn]) w = Raises NotADirectoryError w.
Proof.
  intros Hf Hn Ht. unfold os_replace. rewrite Hf.
  rewrite decide_False by (intros E; rewrite E, Hn in Hf; discriminate).
  destruct (bool_decide (file `prefix_of` tp ++ [tn])); [reflexivity|].
  rewrite parent_snoc, Ht. reflexivity.
Qed.

(** Whenever [move_file] returns on a regular file whose target name was
    free, the file has been moved there. *)
Lemma move_file_returns_moved (s d file : path) (category : pystr)
    (w w' : world) (data : list Byte.byte) :
  let new_filename := normalize (stem (name file)) ++ suffix (name file) in
  fs_lookup file (disk w) = Some (File data) ->
  fs_lookup (d ++ [category; new_filename]) (disk w) = None ->
  move_file (FileOrganizer_init s d) file category w = Returns tt w' ->
  fs_lookup (d ++ [category; new_filename]) (disk w') = Some (File data)
  /\ fs_lookup file (disk w') = None
  /\ List.last (syscalls w') (EvUnlink [])
     = EvReplace file (d ++ [category; new_filename]).
Proof.
  intros new_filename Hfile Hnew Hrun.
  change (d ++ [category; new_filename])
    with (d ++ [category] ++ [new_filename]) in *.
  rewrite app_assoc in *.
  rewrite move_file_init in Hrun. cbv zeta in Hrun. fold new_filename in Hrun.
  assert (Hmoved : forall w1 es,
             fs_lookup file (disk w1) = Some (File data) ->
             fs_lookup (d ++ [category]) (disk w1) = Some (Dir es) ->
             fs_lookup ((d ++ [category]) ++ [new_filename]) (disk w1) = None ->
             os_replace file ((d ++ [category]) ++ [new_filename]) w1
             = Returns tt w' ->
             fs_lookup ((d ++ [category]) ++ [new_filename]) (disk w')
             = Some (File data)
             /\ fs_lookup file (disk w') = None
             /\ List.last (syscalls w') (EvUnlink [])
                = EvReplace file ((d ++ [category]) ++ [new_filename])).
  { intros w1 es Hf1 Hd1 Hn1 Hrep.
    assert (Hne : file <> []).
    { intros ->. simpl in Hf1. injection Hf1 as Hroot.
      rewrite fs_lookup_app, Hroot in Hd1. destruct d; discriminate. }
    destruct (os_replace_file file (d ++ [category]) new_filename data es w1
                Hne Hf1 Hd1 Hn1) as (w2 & Hrun2 & _ & Hsys & H1 & H2).
    pose proof (eq_trans (eq_sym Hrun2) Hrep) as Heq. injection Heq as <-.
    repeat split; try assumption. rewrite Hsys. apply last_last. }
  destruct (fs_lookup (d ++ [category]) (disk w)) as [[x|ces]|] eqn:Ecat;
    unfold bind at 1 in Hrun; unfold path_exists at 1 in Hrun.
  - exfalso. rewrite (lookup_some_decide _ _ _ Ecat) in Hrun. simpl in Hrun.
    unfold bind, ret, path_exists in Hrun.
    rewrite (lookup_none_decide _ _ Hnew) in Hrun. simpl in Hrun.
    pose proof (eq_trans (eq_sym Hrun)
                  (os_replace_into_file file (d ++ [category]) new_filename
                     data x w Hfile Hnew Ecat)) as Heq.
    discriminate Heq.
  - rewrite (lookup_some_decide _ _ _ Ecat) in Hrun. simpl in Hrun.
    unfold bind, ret, path_exists in Hrun.
    rewrite (lookup_none_decide _ _ Hnew) in Hrun. simpl in Hrun.
    exact (Hmoved w ces Hfile Ecat Hnew Hrun).
  - rewrite (lookup_none_decide _ _ Ecat) in Hrun. simpl in Hrun.
    unfold bind at 1 in Hrun.
    destruct (mkdir true false (d ++ [category]) w) as [[] w1|e w1|] eqn:Emk;
      try discriminate.
    unfold mkdir in Emk.
    destruct (mkdir_rev_post _ false w w1 Emk) as (_ & Hdir & Hfiles).
    rewrite rev_involutive in Hdir. specialize (Hdir eq_refl).
    assert (Hn1 : fs_lookup ((d ++ [category]) ++ [new_filename]) (disk w1)
                  = None).
    { rewrite fs_lookup_app, Hdir. reflexivity. }
    unfold bind, path_exists in Hrun.
    rewrite (lookup_none_decide _ _ Hn1) in Hrun. simpl in Hrun.
    exact (Hmoved w1 [] (Hfiles _ _ Hfile) Hdir Hn1 Hrun).
Qed.

(** C10. For a regular file [file] whose target name is free: whenever
    [move_file] returns, the file is found with its content under
    [destination_folder/category] with the name [normalize(stem)] followed
    by the suffix of its old name as it was, it is gone from its old path,
    and the last system call is that move; [move_file] does return when
    the destination is a directory in which [category] is no regular file;
    and the stem and the suffix are the two parts of the old name. *)
Theorem move_file_renames_stem_only (s d file : path) (category : pystr)
    (w : world) (data : list Byte.byte) :
  let new_filename := normalize (stem (name file)) ++ suffix (name file) in
  let new_path := d ++ [category; new_filename] in
  fs_lookup file (disk w) = Some (File data) ->
  fs_lookup new_path (disk w) = None ->
  (forall w',
      move_file (FileOrganizer_init s d) file category w = Returns tt w' ->
      fs_lookup new_path (disk w') = Some (File data)
      /\ fs_lookup file (disk w') = None
      /\ List.last (syscalls w') (EvUnlink []) = EvReplace file new_path)
  /\ (forall des,
         fs_lookup d (disk w) = Some (Dir des) ->
         (forall x, find_entry category des <> Some (File x)) ->
         exists w',
           move_file (FileOrganizer_init s d) file category w = Returns tt w')
  /\ stem (name file) ++ suffix (name file) = name file.
Proof.
  intros new_filename new_path Hfile Hnew. split; [|split].
  - intros w' Hrun.
    exact (move_file_returns_moved s d file category w w' data Hfile Hnew Hrun).
  - intros des Hd Hcat.
    destruct (move_file_into_directory s d file category w data des
                Hfile Hd Hcat Hnew) as (w' & Hrun & _).
    exists w'. exact Hrun.
  - apply stem_suffix.
Qed.

(** ** Archive expander *)

Lemma mkdir_noparents (exist_ok : bool) (p : path) (w : world) :
  mkdir false exist_ok p w = mkdir_here exist_ok p w.
Proof.
  unfold mkdir, mkdir_here.
  pose proof (rev_involutive p) as H. revert H.
  generalize (rev p). intros rp H.
  destruct rp as [|n rp]; simpl in *; unfold try_except; rewrite H;
    destruct (os_mkdir p w) as [a w'|e w'|]; try reflexivity;
    destruct e; reflexivity.
Qed.

(** [mkdir(exist_ok=True)] on a path: it leaves a directory that stands,
    makes one that is missing in a directory, and raises otherwise, the
    world unchanged. *)
Lemma mkdir_here_cases (p : path) (w : world) :
  mkdir_here true p w
  = match fs_lookup p (disk w) with
    | Some (Dir _) => Returns tt w
    | Some (File _) => Raises FileExistsError w
    | None =>
        match fs_lookup (parent p) (disk w) with
        | Some (Dir _) =>
            Returns tt (set_disk (fs_put p (Dir []) (disk w)) (EvMkdir p) w)
        | Some (File _) => Raises NotADirectoryError w
        | None =>
            if lookup_error p (disk w) then Raises NotADirectoryError w
            else Raises FileNotFoundError w
        end
    end.
Proof.
  unfold mkdir_here, try_except, os_mkdir, bind, is_dir.
  destruct (fs_lookup p (disk w)) as [[data|es]|] eqn:E; simpl;
    rewrite ?E; try reflexivity.
  destruct (fs_lookup (parent p) (disk w)) as [[data|es]|]; simpl;
    rewrite ?E; try reflexivity.
  destruct (lookup_error p (disk w)); simpl; rewrite ?E; reflexivity.
Qed.

(** What [mkdir(exist_ok=True)] of [dir/n] leaves behind. *)
Lemma mkdir_here_world (dir : path) (n : pystr) (w w' : world) :
  final_world (mkdir_here true (dir ++ [n]) w) = Some w' ->
  w' = w
  \/ (fs_lookup (dir ++ [n]) (disk w) = None
      /\ (exists es, fs_lookup dir (disk w) = Some (Dir es))
      /\ mkdir_here true (dir ++ [n]) w = Returns tt w'
      /\ w' = set_disk (modify dir (on_dir (put_entry n (Dir []))) (disk w))
                (EvMkdir (dir ++ [n])) w).
Proof.
  rewrite mkdir_here_cases, parent_snoc, fs_put_snoc.
  destruct (fs_lookup (dir ++ [n]) (disk w)) as [[data|es]|] eqn:E; simpl;
    try (intros [= <-]; left; reflexivity).
  destruct (fs_lookup dir (disk w)) as [[data|es]|] eqn:Ed; simpl;
    try (intros [= <-]; left; reflexivity).
  - intros [= <-]. right. eauto.
  - destruct (lookup_error (dir ++ [n]) (disk w)); intros [= <-]; left;
      reflexivity.
Qed.

Lemma mkdir_here_stands (dir : path) (n : pystr) (w w' : world) :
  mkdir_here true (dir ++ [n]) w = Returns tt w' ->
  exists es, fs_lookup (dir ++ [n]) (disk w') = Some (Dir es).
Proof.
  intros H. pose proof H as Hc. rewrite mkdir_here_cases in Hc.
  destruct (fs_lookup (dir ++ [n]) (disk w)) as [[data|es]|] eqn:E;
    try discriminate.
  - injection Hc as <-. eauto.
  - rewrite parent_snoc, fs_put_snoc in Hc.
    destruct (fs_lookup dir (disk w)) as [[data|es]|] eqn:Ed;
      try discriminate.
    + injection Hc as <-. simpl.
      rewrite fs_lookup_modify_below, Ed. simpl.
      rewrite find_entry_put_eq. eauto.
    + destruct (lookup_error (dir ++ [n]) (disk w)); discriminate.
Qed.

(** A regular file outside the modified subtree stays as it is. *)
Lemma fs_lookup_modify_file_outside (p q : path) (f : node -> node) (t : node)
    (data : list Byte.byte) :
  fs_lookup q t = Some (File data) ->
  ~ p `prefix_of` q ->
  fs_lookup q (modify p f t) = Some (File data).
Proof.
  intros Hq Hpre.
  destruct (path_trichotomy p q)
    as [[r ->]|[[r ->]|(x & a & b & p' & q' & Hab & -> & ->)]].
  - exfalso. apply Hpre. exists r. reflexivity.
  - destruct r as [|m r].
    + exfalso. apply Hpre. rewrite app_nil_r. reflexivity.
    + rewrite fs_lookup_modify_above, Hq. reflexivity.
  - rewrite fs_lookup_modify_aside by exact Hab. exact Hq.
Qed.

Lemma mkdir_here_keeps_files (dir : path) (n : pystr) (w w' : world)
    (q : path) (data : list Byte.byte) :
  final_world (mkdir_here true (dir ++ [n]) w) = Some w' ->
  fs_lookup q (disk w) = Some (File data) ->
  fs_lookup q (disk w') = Some (File data).
Proof.
  intros H Hq.
  apply mkdir_here_world in H as [->|(Hn & _ & _ & ->)]; [exact Hq|].
  simpl. apply fs_lookup_put_fresh_file; assumption.
Qed.

Lemma extract_body_eq (archive_dir archive_path : path) (w : world) :
  extract_body archive_dir archive_path w
  = match mkdir_here true (archive_dir ++ [stem (name archive_path)]) w with
    | Returns _ w1 =>
        match decoder_of (lower (suffix (name archive_path))) with
        | Some decoder =>
            (run_decoder decoder archive_path
               (archive_dir ++ [stem (name archive_path)])
             >> unlink archive_path) w1
        | None => Returns tt w1
        end
    | Raises e w' => Raises e w'
    | OutOfFuel => OutOfFuel
    end.
Proof.
  unfold extract_body, decoder_of. unfold bind at 1.
  rewrite mkdir_noparents.
  destruct (mkdir_here true _ w) as [a w1|e w1|]; try reflexivity.
  destruct (bool_decide (lower (suffix (name archive_path)) = py ".rar"));
    [reflexivity|].
  destruct (bool_decide (lower (suffix (name archive_path)) ∈ _)); reflexivity.
Qed.

Lemma silent_mkdir_here_world (p : path) (w w' : world) :
  final_world (mkdir_here true p w) = Some w' -> stdout w' = stdout w.
Proof.
  intros H. pose proof (silent_mkdir_here true p w) as Hs.
  destruct (mkdir_here true p w); simpl in H; try discriminate;
    injection H as <-; exact Hs.
Qed.







(** C6. On an instance made by the constructor the archive expander
    raises [AttributeError] before it looks at the disk, so it makes no
    subfolder and extracts nothing, whatever archives the disk holds. With
    the attribute [root_dir] bound, the loop makes the subfolder before it
    tests the suffix: for [Docs/report.txt] it creates [Archives/report]. *)
Theorem extract_subfolder_for_text_file :
  (forall s d w,
      extract_and_move_archives (FileOrganizer_init s d) w
      = Raises (AttributeError "root_dir") w)
  /\ (let self :=
        <["root_dir" := VPath [py "home"]]>
          (FileOrganizer_init [py "home"] [py "home"]) in
      exists w',
        extract_and_move_archives self docs_world = Returns tt w'
        /\ fs_lookup [py "home"; py "Archives"; py "report"] (disk w')
           = Some (Dir [])
        /\ fs_lookup [py "home"; py "Docs"; py "report.txt"] (disk w')
           = Some (File [])
        /\ syscalls w' = [EvMkdir [py "home"; py "Archives"; py "report"]]).
Proof.
  split; [apply extract_and_move_archives_init|].
  eexists. split; [vm_compute; reflexivity|].
  repeat split.
Qed.

(** ** Empty-directory pruner *)

Lemma pruned_dir (es : list (pystr * node)) :
  pruned (Dir es) = Dir (pruned_entries es).
Proof. reflexivity. Qed.

Lemma removed_dir (here : path) (es : list (pystr * node)) :
  removed here (Dir es) = removed_entries here es.
Proof.
  simpl. induction es as [|[n c] es IH]; simpl; [reflexivity|].
  rewrite IH. reflexivity.
Qed.

Lemma well_formed_dir (es : list (pystr * node)) :
  well_formed (Dir es)
  <-> NoDup (map fst es) /\ Forall (fun e => well_formed e.2) es.
Proof.
  simpl. apply and_iff_compat_l.
  induction es as [|[n c] es IH]; simpl.
  - split; auto.
  - rewrite IH. split.
    + intros [H1 H2]. constructor; assumption.
    + intros H. inversion H; subst. auto.
Qed.

Lemma height_dir (es : list (pystr * node)) (k : nat) :
  height (Dir es) <= S k <-> Forall (fun e => height e.2 <= k) es.
Proof.
  simpl. rewrite <- Nat.succ_le_mono.
  induction es as [|[n c] es IH]; simpl.
  - split; [constructor|lia].
  - rewrite Nat.max_lub_iff, IH. split.
    + intros [H1 H2]. constructor; assumption.
    + intros H. inversion H; subst. auto.
Qed.

Lemma put_entry_put_entry (n : pystr) (a b : node) (es : list (pystr * node)) :
  put_entry n a (put_entry n b es) = put_entry n a es.
Proof.
  induction es as [|[m x] es IH]; simpl.
  - rewrite decide_True by reflexivity. reflexivity.
  - destruct (decide (m = n)) as [->|Hne]; simpl.
    + rewrite decide_True by reflexivity. reflexivity.
    + rewrite decide_False by exact Hne. f_equal. exact IH.
Qed.

Lemma put_entry_same (n : pystr) (c : node) (es : list (pystr * node)) :
  find_entry n es = Some c -> put_entry n c es = es.
Proof.
  induction es as [|[m x] es IH]; simpl; [discriminate|].
  destruct (decide (m = n)) as [->|Hne].
  - intros [= ->]. reflexivity.
  - intros H. f_equal. auto.
Qed.

Lemma modify_app (p q : path) (f : node -> node) (t : node) :
  modify (p ++ q) f t = modify p (modify q f) t.
Proof.
  revert t. induction p as [|n p IH]; intros t; simpl; [reflexivity|].
  destruct t as [data|es]; [reflexivity|].
  destruct (find_entry n es); [|reflexivity]. rewrite IH. reflexivity.
Qed.

Lemma modify_modify (p : path) (f g : node -> node) (t : node) :
  modify p f (modify p g t) = modify p (fun x => f (g x)) t.
Proof.
  revert t. induction p as [|n p IH]; intros t; simpl; [reflexivity|].
  destruct t as [data|es]; [reflexivity|].
  destruct (find_entry n es) as [c|] eqn:E; simpl.
  - rewrite find_entry_put_eq, put_entry_put_entry, IH. reflexivity.
  - rewrite E. reflexivity.
Qed.

Lemma modify_same (p : path) (c t : node) :
  fs_lookup p t = Some c -> modify p (fun _ => c) t = t.
Proof.
  revert t. induction p as [|n p IH]; intros t; simpl.
  - intros [= ->]. reflexivity.
  - destruct t as [data|es]; [reflexivity|].
    destruct (find_entry n es) as [x|] eqn:E; [|reflexivity].
    intros H. rewrite (IH x H). rewrite (put_entry_same n x es E). reflexivity.
Qed.

Lemma modify_ext (p : path) (f g : node -> node) (t : node) :
  (forall x, f x = g x) -> modify p f t = modify p g t.
Proof.
  intros H. revert t. induction p as [|n p IH]; intros t; simpl; [apply H|].
  destruct t as [data|es]; [reflexivity|].
  destruct (find_entry n es); [|reflexivity]. rewrite IH. reflexivity.
Qed.

(** The disk seen as a base disk whose subtree at [r] is replaced. *)
Lemma lookup_in_replaced (r q : path) (c t x : node) :
  fs_lookup r t = Some x ->
  fs_lookup (r ++ q) (modify r (fun _ => c) t) = fs_lookup q c.
Proof. intros H. rewrite fs_lookup_modify_below, H. reflexivity. Qed.

Lemma modify_in_replaced (r q : path) (f : node -> node) (c t : node) :
  modify (r ++ q) f (modify r (fun _ => c) t)
  = modify r (fun _ => modify q f c) t.
Proof. rewrite modify_app, modify_modify. reflexivity. Qed.

Lemma find_entry_app_fresh (n : pystr) (c : node)
    (before after : list (pystr * node)) :
  n ∉ map fst before ->
  find_entry n (before ++ (n, c) :: after) = Some c.
Proof.
  induction before as [|[m x] before IH]; simpl; intros H.
  - rewrite decide_True by reflexivity. reflexivity.
  - apply not_elem_of_cons in H as [H1 H2].
    rewrite decide_False by congruence. auto.
Qed.

Lemma put_entry_app_fresh (n : pystr) (c x : node)
    (before after : list (pystr * node)) :
  n ∉ map fst before ->
  put_entry n x (before ++ (n, c) :: after) = before ++ (n, x) :: after.
Proof.
  induction before as [|[m y] before IH]; simpl; intros H.
  - rewrite decide_True by reflexivity. reflexivity.
  - apply not_elem_of_cons in H as [H1 H2].
    rewrite decide_False by congruence. f_equal. auto.
Qed.

Lemma remove_entry_fresh (n : pystr) (es : list (pystr * node)) :
  n ∉ map fst es -> remove_entry n es = es.
Proof.
  induction es as [|[m y] es IH]; simpl; intros H; [reflexivity|].
  apply not_elem_of_cons in H as [H1 H2].
  rewrite decide_False by congruence. f_equal. auto.
Qed.

Lemma remove_entry_app_fresh (n : pystr) (c : node)
    (before after : list (pystr * node)) :
  n ∉ map fst before -> n ∉ map fst after ->
  remove_entry n (before ++ (n, c) :: after) = before ++ after.
Proof.
  induction before as [|[m y] before IH]; simpl; intros H1 H2.
  - rewrite decide_True by reflexivity. apply remove_entry_fresh. exact H2.
  - apply not_elem_of_cons in H1 as [H1 H3].
    rewrite decide_False by congruence. f_equal. auto.
Qed.

Lemma NoDup_names_middle (n : pystr) (c : node)
    (before after : list (pystr * node)) :
  NoDup (map fst (before ++ (n, c) :: after)) ->
  (n ∉ map fst before) /\ (n ∉ map fst after).
Proof.
  rewrite map_app. simpl. intros H.
  apply NoDup_app in H as (_ & H2 & H3).
  inversion H3; subst. split; [|assumption].
  intros Hin. apply (H2 n Hin). left.
Qed.

Lemma pruned_entries_cons_dir (n : pystr) (ces rest : list (pystr * node)) :
  pruned_entries ((n, Dir ces) :: rest)
  = match pruned_entries ces with
    | [] => pruned_entries rest
    | _ :: _ => (n, Dir (pruned_entries ces)) :: pruned_entries rest
    end.
Proof.
  cbn [pruned_entries]. rewrite pruned_dir.
  destruct (pruned_entries ces); reflexivity.
Qed.

Lemma removed_entries_cons_dir (here : path) (n : pystr)
    (ces rest : list (pystr * node)) :
  removed_entries here ((n, Dir ces) :: rest)
  = removed_entries (here ++ [n]) ces
    ++ match pruned_entries ces with
       | [] => [here ++ [n]]
       | _ :: _ => []
       end
    ++ removed_entries here rest.
Proof.
  cbn [removed_entries]. rewrite pruned_dir, removed_dir.
  destruct (pruned_entries ces); reflexivity.
Qed.

Lemma rmdir_empty (p : path) (n : pystr) (w : world) :
  fs_lookup (p ++ [n]) (disk w) = Some (Dir []) ->
  rmdir (p ++ [n]) w
  = Returns tt
      (set_disk (fs_remove (p ++ [n]) (disk w)) (EvRmdir (p ++ [n])) w).
Proof. intros H. unfold rmdir. rewrite H. destruct p; reflexivity. Qed.

Lemma remove_empty_folders_step (fuel : nat) (self : instance) (r : path)
    (w : world) :
  remove_empty_folders (S fuel) self (Some r) w
  = (let* children := iterdir r in
     for_each children (prune_body fuel self)) w.
Proof. reflexivity. Qed.

Lemma prune_loop (fuel : nat) (self : instance) (r : path) (t0 x0 : node) :
  (forall r' w' es',
      fs_lookup r' (disk w') = Some (Dir es') ->
      well_formed (Dir es') ->
      height (Dir es') <= fuel ->
      remove_empty_folders fuel self (Some r') w'
      = Returns tt (pruned_world r' es' w')) ->
  fs_lookup r t0 = Some x0 ->
  forall todo done w,
    disk w = modify r (fun _ => Dir (done ++ todo)) t0 ->
    NoDup (map fst (done ++ todo)) ->
    Forall (fun e => well_formed e.2) todo ->
    Forall (fun e => height e.2 <= fuel) todo ->
    for_each (map (fun e => r ++ [e.1]) todo) (prune_body fuel self) w
    = Returns tt
        (World (modify r (fun _ => Dir (done ++ pruned_entries todo)) t0)
           (stdout w)
           (syscalls w ++ map EvRmdir (removed_entries r todo))).
Proof.
  intros IH Hr.
  induction todo as [|[n c] todo IHt]; intros done w Hdisk Hnd Hwf Hh.
  - simpl. unfold ret. rewrite !app_nil_r in *. rewrite <- Hdisk.
    destruct w; reflexivity.
  - destruct (NoDup_names_middle n c done todo Hnd) as [Hn1 Hn2].
    inversion Hwf as [|? ? Hwc Hwf']; subst.
    inversion Hh as [|? ? Hhc Hh']; subst. simpl in Hwc, Hhc.
    assert (Hc : fs_lookup (r ++ [n]) (disk w) = Some c).
    { rewrite Hdisk, (lookup_in_replaced r [n] _ t0 x0 Hr). simpl.
      rewrite find_entry_app_fresh by exact Hn1. reflexivity. }
    cbn [map for_each fst]. unfold bind at 1. unfold prune_body at 1.
    unfold bind at 1. unfold is_dir at 1. rewrite Hc.
    destruct c as [data|ces].
    + (* a regular file: left alone *)
      unfold ret at 1.
      rewrite (IHt (done ++ [(n, File data)]) w).
      * cbn [pruned_entries removed_entries]. rewrite <- app_assoc.
        reflexivity.
      * rewrite <- app_assoc. exact Hdisk.
      * rewrite <- app_assoc. exact Hnd.
      * exact Hwf'.
      * exact Hh'.
    + (* a directory: pruned first, removed if it is then empty *)
      unfold bind at 1. rewrite (IH (r ++ [n]) w ces Hc Hwc Hhc).
      set (wa := pruned_world (r ++ [n]) ces w).
      assert (Hda : disk wa
                    = modify r
                        (fun _ => Dir (done ++ (n, Dir (pruned_entries ces)) :: todo))
                        t0).
      { subst wa. unfold pruned_world. cbn [disk].
        rewrite Hdisk, modify_in_replaced. apply modify_ext. intros _.
        simpl. rewrite find_entry_app_fresh by exact Hn1.
        rewrite put_entry_app_fresh by exact Hn1. reflexivity. }
      assert (Hla : fs_lookup (r ++ [n]) (disk wa)
                    = Some (Dir (pruned_entries ces))).
      { rewrite Hda, (lookup_in_replaced r [n] _ t0 x0 Hr). simpl.
        rewrite find_entry_app_fresh by exact Hn1. reflexivity. }
      unfold bind at 1. unfold iterdir at 1. rewrite Hla.
      rewrite pruned_entries_cons_dir, removed_entries_cons_dir.
      destruct (pruned_entries ces) as [|e pces] eqn:Ep.
      * (* empty: rmdir *)
        cbn [map]. rewrite (rmdir_empty r n wa Hla).
        set (wb := set_disk _ _ wa).
        rewrite (IHt done wb).
        -- subst wb wa. unfold pruned_world. cbn [stdout syscalls set_disk].
           rewrite !map_app, <- !app_assoc. reflexivity.
        -- subst wb. cbn [disk set_disk].
           rewrite fs_remove_snoc, Hda, modify_modify.
           apply modify_ext. intros _. simpl.
           rewrite remove_entry_app_fresh by assumption. reflexivity.
        -- rewrite map_app in *. simpl in Hnd.
           apply NoDup_app in Hnd as (H1 & H2 & H3).
           inversion H3; subst.
           apply NoDup_app. repeat split; try assumption.
           intros y Hy Hy'. apply (H2 y Hy). right. exact Hy'.
        -- exact Hwf'.
        -- exact Hh'.
      * (* not empty: kept *)
        cbn [map]. unfold ret at 1.
        rewrite (IHt (done ++ [(n, Dir (e :: pces))]) wa).
        -- subst wa. unfold pruned_world. cbn [stdout syscalls].
           rewrite ?map_app, <- ?app_assoc. reflexivity.
        -- rewrite <- app_assoc. exact Hda.
        -- rewrite <- app_assoc. rewrite map_app in *. exact Hnd.
        -- exact Hwf'.
        -- exact Hh'.
Qed.

(** With fuel for the height of the tree, the pruner returns, and leaves
    the pruned tree and the log of its removals. *)
Lemma remove_empty_folders_run (fuel : nat) (self : instance) :
  forall (r : path) (w : world) (es : list (pystr * node)),
    fs_lookup r (disk w) = Some (Dir es) ->
    well_formed (Dir es) ->
    height (Dir es) <= fuel ->
    remove_empty_folders fuel self (Some r) w = Returns tt (pruned_world r es w).
Proof.
  induction fuel as [|fuel IH]; intros r w es Hr Hwf Hh.
  - simpl in Hh. lia.
  - rewrite remove_empty_folders_step. unfold bind, iterdir. rewrite Hr.
    apply well_formed_dir in Hwf as [Hnd Hwf].
    apply height_dir in Hh.
    assert (Hstart : disk w = modify r (fun _ => Dir ([] ++ es)) (disk w)).
    { simpl. symmetry. apply modify_same. exact Hr. }
    exact (prune_loop fuel self r (disk w) (Dir es) IH Hr es [] w
             Hstart Hnd Hwf Hh).
Qed.

(** Induction on trees, with the hypothesis for every entry of a
    directory. *)
Lemma node_nested_ind (P : node -> Prop)
    (HF : forall d, P (File d))
    (HD : forall es, Forall (fun e => P e.2) es -> P (Dir es)) :
  forall t, P t.
Proof.
  fix IH 1. intros [d|es]; [apply HF|apply HD].
  induction es as [|e es IHes]; constructor; [apply IH|exact IHes].
Qed.

Lemma find_entry_elem (n : pystr) (c : node) (es : list (pystr * node)) :
  find_entry n es = Some c -> (n, c) ∈ es.
Proof.
  induction es as [|[m x] es IH]; simpl; [discriminate|].
  destruct (decide (m = n)) as [->|Hne].
  - intros [= ->]. left.
  - intros H. right. auto.
Qed.

Lemma find_entry_absent (n : pystr) (es : list (pystr * node)) :
  n ∉ map fst es -> find_entry n es = None.
Proof.
  induction es as [|[m x] es IH]; simpl; intros H; [reflexivity|].
  apply not_elem_of_cons in H as [H1 H2].
  rewrite decide_False by congruence. auto.
Qed.

Lemma find_entry_NoDup (n : pystr) (c : node) (es : list (pystr * node)) :
  NoDup (map fst es) -> (n, c) ∈ es -> find_entry n es = Some c.
Proof.
  induction es as [|[m x] es IH]; simpl; intros Hnd Hin.
  - apply elem_of_nil in Hin. contradiction.
  - inversion Hnd as [|? ? Hm Hnd']; subst.
    apply elem_of_cons in Hin as [[= -> ->]|Hin].
    + rewrite decide_True by reflexivity. reflexivity.
    + destruct (decide (m = n)) as [->|Hne]; [|auto].
      exfalso. apply Hm.
      apply (list_elem_of_fmap_2 fst) in Hin. exact Hin.
Qed.

Lemma pruned_names (es : list (pystr * node)) (n : pystr) :
  n ∈ map fst (pruned_entries es) -> n ∈ map fst es.
Proof.
  induction es as [|[m c] es IH]; [intros H; exact H|].
  destruct c as [d|ces].
  - cbn [pruned_entries map fst]. intros H.
    apply elem_of_cons in H as [->|H]; [left|right; auto].
  - rewrite pruned_entries_cons_dir.
    destruct (pruned_entries ces); cbn [map fst]; intros H.
    + right. auto.
    + apply elem_of_cons in H as [->|H]; [left|right; auto].
Qed.

(** An entry found in the pruned listing is the pruned form of an entry
    of the listing, and no empty directory. *)
Lemma find_pruned_inv (n : pystr) (c' : node) (es : list (pystr * node)) :
  find_entry n (pruned_entries es) = Some c' ->
  exists c, (n, c) ∈ es /\ c' = pruned c /\ c' <> Dir [].
Proof.
  induction es as [|[m c] es IH]; [discriminate|].
  destruct c as [d|ces].
  - cbn [pruned_entries find_entry].
    destruct (decide (m = n)) as [->|Hne].
    + intros [= <-]. exists (File d). repeat split; [left|discriminate].
    + intros H. destruct (IH H) as (c & Hin & Hc). exists c.
      split; [right; exact Hin|exact Hc].
  - rewrite pruned_entries_cons_dir.
    destruct (pruned_entries ces) as [|e pces] eqn:Ep.
    + intros H. destruct (IH H) as (c & Hin & Hc). exists c.
      split; [right; exact Hin|exact Hc].
    + cbn [find_entry]. destruct (decide (m = n)) as [->|Hne].
      * intros [= <-]. exists (Dir ces).
        rewrite pruned_dir, Ep. repeat split; [left|discriminate].
      * intros H. destruct (IH H) as (c & Hin & Hc). exists c.
        split; [right; exact Hin|exact Hc].
Qed.

(** An entry whose pruned form is no empty directory is kept. *)
Lemma find_pruned_keep (n : pystr) (c : node) (es : list (pystr * node)) :
  find_entry n es = Some c ->
  pruned c <> Dir [] ->
  find_entry n (pruned_entries es) = Some (pruned c).
Proof.
  induction es as [|[m x] es IH]; [discriminate|].
  cbn [find_entry]. destruct (decide (m = n)) as [->|Hne].
  - intros [= ->] Hc. destruct c as [d|ces].
    + cbn [pruned_entries find_entry]. rewrite decide_True by reflexivity.
      reflexivity.
    + rewrite pruned_entries_cons_dir. rewrite pruned_dir in Hc |- *.
      destruct (pruned_entries ces); [contradiction|].
      cbn [find_entry]. rewrite decide_True by reflexivity. reflexivity.
  - intros H Hc. destruct x as [d|ces].
    + cbn [pruned_entries find_entry]. rewrite decide_False by exact Hne.
      auto.
    + rewrite pruned_entries_cons_dir.
      destruct (pruned_entries ces); [auto|].
      cbn [find_entry]. rewrite decide_False by exact Hne. auto.
Qed.

(** No directory below the top of a pruned tree is empty. *)
Lemma pruned_no_empty (t : node) :
  forall q es', q <> [] -> fs_lookup q (pruned t) = Some (Dir es') -> es' <> [].
Proof.
  induction t as [d|es IH] using node_nested_ind; intros q es' Hq H.
  - destruct q; [contradiction|discriminate].
  - rewrite pruned_dir in H. destruct q as [|n q]; [contradiction|].
    simpl in H.
    destruct (find_entry n (pruned_entries es)) as [c'|] eqn:E;
      [|discriminate].
    destruct (find_pruned_inv n c' es E) as (c & Hin & -> & Hne).
    destruct q as [|m q].
    + simpl in H. injection H as H. intros ->. apply Hne. exact H.
    + rewrite Forall_forall in IH.
      apply (IH (n, c) Hin (m :: q) es'); [discriminate|exact H].
Qed.

Lemma lookup_empty_dir_file (q : path) (data : list Byte.byte) :
  fs_lookup q (Dir []) <> Some (File data).
Proof. destruct q; discriminate. Qed.

(** The regular files of a tree are those of its pruned tree. *)
Lemma pruned_keeps_files (t : node) :
  forall q data,
    fs_lookup q t = Some (File data) ->
    fs_lookup q (pruned t) = Some (File data).
Proof.
  induction t as [d|es IH] using node_nested_ind; intros q data H.
  - exact H.
  - rewrite pruned_dir. destruct q as [|n q]; [discriminate|].
    simpl in H |- *.
    destruct (find_entry n es) as [c|] eqn:E; [|discriminate].
    rewrite Forall_forall in IH.
    pose proof (IH (n, c) (find_entry_elem n c es E) q data H) as Hc.
    simpl in Hc.
    rewrite (find_pruned_keep n c es E).
    + exact Hc.
    + intros Hp. rewrite Hp in Hc. exact (lookup_empty_dir_file q data Hc).
Qed.

Lemma pruned_files_old (t : node) :
  well_formed t ->
  forall q data,
    fs_lookup q (pruned t) = Some (File data) ->
    fs_lookup q t = Some (File data).
Proof.
  induction t as [d|es IH] using node_nested_ind; intros Hwf q data H.
  - exact H.
  - apply well_formed_dir in Hwf as [Hnd Hwf].
    rewrite pruned_dir in H. destruct q as [|n q]; [discriminate|].
    simpl in H |- *.
    destruct (find_entry n (pruned_entries es)) as [c'|] eqn:E;
      [|discriminate].
    destruct (find_pruned_inv n c' es E) as (c & Hin & -> & _).
    rewrite (find_entry_NoDup n c es Hnd Hin).
    rewrite Forall_forall in IH, Hwf.
    exact (IH (n, c) Hin (Hwf (n, c) Hin) q data H).
Qed.

Lemma children_first_app (a b : list path) :
  children_first a -> children_first b ->
  (forall p q, p ∈ a -> q ∈ b -> ~ p `prefix_of` q) ->
  children_first (a ++ b).
Proof.
  induction a as [|x a IH]; simpl; intros Ha Hb Hab; [exact Hb|].
  destruct Ha as [Hx Ha]. split.
  - apply Forall_app. split; [exact Hx|].
    apply Forall_forall. intros q Hq. apply Hab; [left|exact Hq].
  - apply IH; [exact Ha|exact Hb|].
    intros p q Hp Hq. apply Hab; [right; exact Hp|exact Hq].
Qed.

Lemma children_first_split (l l1 l2 : list path) (p q : path) :
  children_first l -> l = l1 ++ p :: l2 -> q ∈ l2 -> ~ p `prefix_of` q.
Proof.
  intros H ->. induction l1 as [|x l1 IH]; simpl in H.
  - destruct H as [H _]. rewrite Forall_forall in H. intros Hq. exact (H q Hq).
  - destruct H as [_ H]. exact (IH H).
Qed.

Lemma prefix_parts (here : path) (m n : pystr) (x y : path) :
  m <> n -> ~ (here ++ m :: x) `prefix_of` (here ++ n :: y).
Proof.
  intros Hmn [k Hk]. rewrite <- app_assoc in Hk.
  apply app_inv_head in Hk. injection Hk as Hk _. congruence.
Qed.

Lemma prefix_longer (here : path) (m n : pystr) (x : path) :
  ~ (here ++ m :: n :: x) `prefix_of` (here ++ [m]).
Proof.
  intros H. apply prefix_length in H. rewrite !length_app in H.
  simpl in H. lia.
Qed.

(** Every path removed lies strictly below the starting directory, under
    the name of one of its entries. *)
Lemma removed_below (t : node) :
  forall here p, p ∈ removed here t -> exists n q, p = here ++ n :: q.
Proof.
  induction t as [d|es IH] using node_nested_ind; intros here p Hp.
  - apply elem_of_nil in Hp. contradiction.
  - rewrite removed_dir in Hp.
    induction es as [|[m c] es IHes]; [apply elem_of_nil in Hp; contradiction|].
    inversion IH as [|? ? Hc IH']; subst. simpl in Hc.
    destruct c as [d|ces]; [exact (IHes IH' Hp)|].
    rewrite removed_entries_cons_dir in Hp.
    apply elem_of_app in Hp as [Hp|Hp].
    + rewrite <- removed_dir in Hp.
      destruct (Hc _ _ Hp) as (n & q & ->).
      exists m, (n :: q). rewrite <- app_assoc. reflexivity.
    + apply elem_of_app in Hp as [Hp|Hp]; [|exact (IHes IH' Hp)].
      destruct (pruned_entries ces);
        [|apply elem_of_nil in Hp; contradiction].
      apply list_elem_of_singleton in Hp. subst p. exists m, []. reflexivity.
Qed.

Lemma removed_entries_below (here : path) (es : list (pystr * node)) (p : path) :
  p ∈ removed_entries here es ->
  exists n q, p = here ++ n :: q /\ n ∈ map fst es.
Proof.
  induction es as [|[m c] es IH]; intros Hp;
    [apply elem_of_nil in Hp; contradiction|].
  assert (Hrest : p ∈ removed_entries here es ->
                  exists n q, p = here ++ n :: q /\ n ∈ map fst ((m, c) :: es)).
  { intros H. destruct (IH H) as (n & q & -> & Hn). exists n, q.
    split; [reflexivity|right; exact Hn]. }
  destruct c as [d|ces]; [exact (Hrest Hp)|].
  rewrite removed_entries_cons_dir in Hp.
  apply elem_of_app in Hp as [Hp|Hp].
  - rewrite <- removed_dir in Hp.
    destruct (removed_below _ _ _ Hp) as (n & q & ->).
    exists m, (n :: q). rewrite <- app_assoc. split; [reflexivity|left].
  - apply elem_of_app in Hp as [Hp|Hp]; [|exact (Hrest Hp)].
    destruct (pruned_entries ces); [|apply elem_of_nil in Hp; contradiction].
    apply list_elem_of_singleton in Hp. subst p. exists m, [].
    split; [reflexivity|left].
Qed.

Lemma removed_children_first (t : node) :
  forall here, well_formed t -> children_first (removed here t).
Proof.
  induction t as [d|es IH] using node_nested_ind; intros here Hwf;
    [exact I|].
  rewrite removed_dir. apply well_formed_dir in Hwf as [Hnd Hwf].
  induction es as [|[m c] es IHes]; [exact I|].
  inversion IH as [|? ? Hc IH']; subst.
  inversion Hwf as [|? ? Hwc Hwf']; subst.
  inversion Hnd as [|? ? Hm Hnd']; subst. simpl in Hc, Hwc.
  destruct c as [d|ces]; [exact (IHes IH' Hnd' Hwf')|].
  rewrite removed_entries_cons_dir.
  assert (Hcross : forall x q,
             q ∈ removed_entries here es -> ~ (here ++ m :: x) `prefix_of` q).
  { intros x q Hq.
    destruct (removed_entries_below here es q Hq) as (n & y & -> & Hn).
    apply prefix_parts. intros ->. contradiction. }
  apply children_first_app.
  - rewrite <- removed_dir. apply Hc. exact Hwc.
  - apply children_first_app.
    + destruct (pruned_entries ces); simpl; auto.
    + exact (IHes IH' Hnd' Hwf').
    + intros p q Hp Hq.
      destruct (pruned_entries ces); [|apply elem_of_nil in Hp; contradiction].
      apply list_elem_of_singleton in Hp. subst p. apply (Hcross []). exact Hq.
  - intros p q Hp Hq. rewrite <- removed_dir in Hp.
    destruct (removed_below _ _ _ Hp) as (n & x & ->).
    rewrite <- app_assoc. simpl.
    apply elem_of_app in Hq as [Hq|Hq].
    + destruct (pruned_entries ces); [|apply elem_of_nil in Hq; contradiction].
      apply list_elem_of_singleton in Hq. subst q. apply prefix_longer.
    + apply Hcross. exact Hq.
Qed.

Lemma find_pruned_absent (n : pystr) (es : list (pystr * node)) :
  n ∉ map fst es -> find_entry n (pruned_entries es) = None.
Proof.
  intros H. apply find_entry_absent. intros Hin. apply H.
  apply pruned_names. exact Hin.
Qed.

(** Every path removed is missing from the pruned tree. *)
Lemma removed_gone (t : node) :
  well_formed t ->
  forall here q, here ++ q ∈ removed here t -> fs_lookup q (pruned t) = None.
Proof.
  induction t as [d|es IH] using node_nested_ind; intros Hwf here q Hp.
  - apply elem_of_nil in Hp. contradiction.
  - rewrite removed_dir in Hp. rewrite pruned_dir.
    apply well_formed_dir in Hwf as [Hnd Hwf].
    induction es as [|[m c] es IHes];
      [apply elem_of_nil in Hp; contradiction|].
    inversion IH as [|? ? Hc IH']; subst.
    inversion Hwf as [|? ? Hwc Hwf']; subst.
    inversion Hnd as [|? ? Hm Hnd']; subst. simpl in Hc, Hwc.
    assert (Hrest : here ++ q ∈ removed_entries here es ->
                    forall kept,
                      fs_lookup q (Dir (pruned_entries es)) = None ->
                      fs_lookup q (Dir ((m, kept) :: pruned_entries es)) = None).
    { intros H kept Hnone.
      destruct (removed_entries_below here es _ H) as (n & y & Hy & Hn).
      apply app_inv_head in Hy. subst q.
      simpl in Hnone |- *. rewrite decide_False; [exact Hnone|].
      intros ->. contradiction. }
    destruct c as [d|ces].
    + cbn [pruned_entries removed_entries] in *.
      apply (Hrest Hp). exact (IHes IH' Hnd' Hwf' Hp).
    + rewrite removed_entries_cons_dir in Hp.
      rewrite pruned_entries_cons_dir.
      apply elem_of_app in Hp as [Hp|Hp].
      * rewrite <- removed_dir in Hp.
        destruct (removed_below _ _ _ Hp) as (n & x & Hx).
        rewrite <- app_assoc in Hx. apply app_inv_head in Hx. subst q.
        assert (Hp' : (here ++ [m]) ++ n :: x ∈ removed (here ++ [m]) (Dir ces))
          by (rewrite <- app_assoc; exact Hp).
        pose proof (Hc Hwc (here ++ [m]) (n :: x) Hp') as Hgone.
        rewrite pruned_dir in Hgone.
        destruct (pruned_entries ces) as [|e pces] eqn:Ep.
        -- simpl. rewrite find_pruned_absent by exact Hm. reflexivity.
        -- simpl. rewrite decide_True by reflexivity. exact Hgone.
      * apply elem_of_app in Hp as [Hp|Hp].
        -- destruct (pruned_entries ces) as [|e pces] eqn:Ep;
             [|apply elem_of_nil in Hp; contradiction].
           apply list_elem_of_singleton in Hp.
           apply app_inv_head in Hp. subst q.
           simpl. rewrite find_pruned_absent by exact Hm. reflexivity.
        -- destruct (pruned_entries ces) as [|e pces] eqn:Ep.
           ++ exact (IHes IH' Hnd' Hwf' Hp).
           ++ apply (Hrest Hp). exact (IHes IH' Hnd' Hwf' Hp).
Qed.

(** C7. Called on a directory [root] of a disk whose directories hold one
    entry per name, with fuel for the height of the tree, the pruner
    returns; it prints nothing and only calls [rmdir]; [root] is a
    directory afterwards, even when nothing is left in it; no directory
    strictly below [root] is empty; the regular files below [root] are
    those that were there, with their content; every path removed lies
    strictly below [root] and is gone; and in the order of the removals no
    path comes after one of its ancestors (children before parents). *)
Theorem remove_empty_folders_prunes (fuel : nat) (self : instance)
    (root : path) (w : world) (es : list (pystr * node)) :
  fs_lookup root (disk w) = Some (Dir es) ->
  well_formed (Dir es) ->
  height (Dir es) <= fuel ->
  exists w' log,
    remove_empty_folders fuel self (Some root) w = Returns tt w'
    /\ stdout w' = stdout w
    /\ syscalls w' = syscalls w ++ map EvRmdir log
    /\ (exists es', fs_lookup root (disk w') = Some (Dir es'))
    /\ (forall q es',
           q <> [] -> fs_lookup (root ++ q) (disk w') = Some (Dir es') ->
           es' <> [])
    /\ (forall q data,
           fs_lookup (root ++ q) (disk w') = Some (File data)
           <-> fs_lookup (root ++ q) (disk w) = Some (File data))
    /\ (forall p, p ∈ log ->
                  (exists n q, p = root ++ n :: q)
                  /\ fs_lookup p (disk w') = None)
    /\ (forall l1 p l2 q,
           log = l1 ++ p :: l2 -> q ∈ l2 -> ~ p `prefix_of` q).
Proof.
  intros Hr Hwf Hh.
  exists (pruned_world root es w), (removed_entries root es).
  assert (Hlook : forall q,
             fs_lookup (root ++ q) (disk (pruned_world root es w))
             = fs_lookup q (pruned (Dir es))).
  { intros q. unfold pruned_world. cbn [disk].
    rewrite (lookup_in_replaced root q _ _ _ Hr), pruned_dir. reflexivity. }
  assert (Hold : forall q,
             fs_lookup (root ++ q) (disk w) = fs_lookup q (Dir es)).
  { intros q. rewrite fs_lookup_app, Hr. reflexivity. }
  split; [apply remove_empty_folders_run; assumption|].
  split; [reflexivity|].
  split; [reflexivity|].
  split; [|split; [|split; [|split]]].
  - exists (pruned_entries es). rewrite <- (app_nil_r root) at 1.
    rewrite Hlook. reflexivity.
  - intros q es' Hq H. rewrite Hlook in H.
    exact (pruned_no_empty (Dir es) q es' Hq H).
  - intros q data. rewrite Hlook, Hold. split.
    + apply pruned_files_old. exact Hwf.
    + apply pruned_keeps_files.
  - intros p Hp. rewrite <- removed_dir in Hp.
    destruct (removed_below _ _ _ Hp) as (n & q & Hq).
    split; [eauto|].
    rewrite Hq, Hlook. rewrite Hq in Hp.
    exact (removed_gone (Dir es) Hwf root (n :: q) Hp).
  - intros l1 p l2 q Hlog Hq.
    apply (children_first_split (removed_entries root es) l1 l2 p q);
      [|exact Hlog|exact Hq].
    rewrite <- removed_dir. apply removed_children_first. exact Hwf.
Qed.

(** * Further properties of the organizer *)

(** ** Names produced by the relocator *)

Lemma rfind_None (c : N) (s : pystr) : rfind c s = None <-> c ∉ s.
Proof.
  induction s as [|x s IH]; simpl.
  - split; [intros _ H; apply elem_of_nil in H; exact H|reflexivity].
  - destruct (rfind c s) as [i|].
    + split; [discriminate|]. intros H. apply not_elem_of_cons in H as [_ H].
      apply IH in H. discriminate.
    + destruct (N.eqb_spec x c) as [->|Hne].
      * split; [discriminate|]. intros H. exfalso. apply H. left.
      * split; [|reflexivity]. intros _. apply not_elem_of_cons.
        split; [congruence|]. apply IH. reflexivity.
Qed.

Lemma rfind_app_Some (c : N) (a b : pystr) (j : nat) :
  rfind c b = Some j -> rfind c (a ++ b) = Some (length a + j).
Proof.
  intros H. induction a as [|x a IH]; simpl; [exact H|].
  rewrite IH. reflexivity.
Qed.

Lemma rfind_Some (c : N) (s : pystr) (i : nat) :
  rfind c s = Some i ->
  i < length s /\ exists r, drop i s = c :: r /\ c ∉ r.
Proof.
  revert i. induction s as [|x s IH]; intros i; simpl; [discriminate|].
  destruct (rfind c s) as [j|] eqn:E.
  - intros [= <-]. destruct (IH j eq_refl) as (Hlt & r & Hr & Hc).
    split; [lia|]. exists r. simpl. auto.
  - destruct (N.eqb_spec x c) as [->|Hne]; [|discriminate].
    intros [= <-]. split; [lia|]. exists s. split; [reflexivity|].
    apply rfind_None. exact E.
Qed.

(** A suffix is empty, or a dot followed by at least one character and no
    further dot. *)
Lemma suffix_shape (n : pystr) :
  suffix n = [] \/ exists r, suffix n = dot :: r /\ r <> [] /\ dot ∉ r.
Proof.
  unfold suffix, suffix_index.
  destruct (rfind dot n) as [i|] eqn:E; [|left; reflexivity].
  destruct ((0 <? i) && (i <? length n - 1)) eqn:Hi; [|left; reflexivity].
  right. destruct (rfind_Some dot n i E) as (Hlt & r & Hr & Hc).
  exists r. split; [exact Hr|]. split; [|exact Hc].
  apply andb_true_iff in Hi as [_ Hi]. apply Nat.ltb_lt in Hi.
  intros ->. assert (Hlen : length (drop i n) = 1) by (rewrite Hr; reflexivity).
  rewrite length_drop in Hlen. lia.
Qed.

(** A dot-free, non-empty stem joined to a suffix splits back into the
    two. *)
Lemma stem_suffix_join (t sfx : pystr) :
  dot ∉ t -> t <> [] ->
  (sfx = [] \/ exists r, sfx = dot :: r /\ r <> [] /\ dot ∉ r) ->
  suffix (t ++ sfx) = sfx /\ stem (t ++ sfx) = t.
Proof.
  intros Ht Hne [->|(r & -> & Hr & Hdot)].
  - rewrite app_nil_r. unfold suffix, stem, suffix_index.
    apply rfind_None in Ht. rewrite Ht. auto.
  - assert (E : rfind dot (dot :: r) = Some 0).
    { simpl. apply rfind_None in Hdot. rewrite Hdot. reflexivity. }
    unfold suffix, stem, suffix_index.
    rewrite (rfind_app_Some dot t (dot :: r) 0 E), Nat.add_0_r.
    assert (Hi : (0 <? length t) && (length t <? length (t ++ dot :: r) - 1)
                 = true).
    { apply andb_true_iff. split; apply Nat.ltb_lt.
      - destruct t; [contradiction|simpl; lia].
      - rewrite length_app. simpl. destruct r; [contradiction|simpl; lia]. }
    rewrite Hi. split.
    + apply drop_app_length.
    + apply take_app_length.
Qed.

Lemma normalize_no_dot (text : pystr) : dot ∉ normalize text.
Proof.
  intros H. pose proof (normalize_token text) as Ht.
  rewrite Forall_forall in Ht. specialize (Ht dot H). discriminate Ht.
Qed.

(** The name given by the relocator is the name the relocator gives to
    it. *)
Lemma moved_name_fixed (n : pystr) :
  (forall u, Forall (fun c => is_word_char c = true) u -> translit u = u) ->
  normalize (stem n) <> [] ->
  let n' := normalize (stem n) ++ suffix n in
  normalize (stem n') ++ suffix n' = n'.
Proof.
  intros Hlatin Hne n'. subst n'.
  destruct (stem_suffix_join (normalize (stem n)) (suffix n)
              (normalize_no_dot _) Hne (suffix_shape n)) as [-> ->].
  rewrite (normalize_fixes_tokens _ Hlatin (normalize_token _)).
  reflexivity.
Qed.

Lemma name_last2 (d : path) (a b : pystr) : name (d ++ [a; b]) = b.
Proof.
  change (d ++ [a; b]) with (d ++ [a] ++ [b]). rewrite app_assoc.
  apply name_snoc.
Qed.

Lemma move_file_target_taken (s d file : path) (category : pystr) (w : world) :
  is_Some (fs_lookup
             (d ++ [category; normalize (stem (name file)) ++ suffix (name file)])
             (disk w)) ->
  move_file (FileOrganizer_init s d) file category w = Returns tt w.
Proof.
  intros [x Hx]. rewrite move_file_init. cbv zeta.
  change (d ++ [category; normalize (stem (name file)) ++ suffix (name file)])
    with (d ++ [category] ++ [normalize (stem (name file)) ++ suffix (name file)])
    in Hx.
  rewrite app_assoc in Hx.
  unfold bind, path_exists.
  assert (Hdir : is_Some (fs_lookup (d ++ [category]) (disk w))).
  { rewrite fs_lookup_app in Hx.
    destruct (fs_lookup (d ++ [category]) (disk w)); [eauto|discriminate]. }
  rewrite (bool_decide_eq_true_2 _ Hdir). simpl.
  rewrite (lookup_some_decide _ _ _ Hx). reflexivity.
Qed.

(** X1. Moving is idempotent: once [move_file] has moved a regular file,
    [move_file] on the file at its new path, with the same category,
    returns and leaves the world as it is (the transliteration leaving
    Latin text alone and the normalized stem being non-empty). *)
Theorem move_file_again_is_skipped (s d file : path) (category : pystr)
    (w w' : world) (data : list Byte.byte) :
  let new_path :=
    d ++ [category; normalize (stem (name file)) ++ suffix (name file)] in
  (forall u, Forall (fun c => is_word_char c = true) u -> translit u = u) ->
  normalize (stem (name file)) <> [] ->
  fs_lookup file (disk w) = Some (File data) ->
  fs_lookup new_path (disk w) = None ->
  move_file (FileOrganizer_init s d) file category w = Returns tt w' ->
  move_file (FileOrganizer_init s d) new_path category w' = Returns tt w'.
Proof.
  intros new_path Hlatin Hne Hfile Hfree Hrun.
  destruct (move_file_returns_moved s d file category w w' data
              Hfile Hfree Hrun) as (Hnew & _).
  apply move_file_target_taken.
  subst new_path. rewrite name_last2.
  rewrite (moved_name_fixed (name file) Hlatin Hne).
  rewrite Hnew. eauto.
Qed.

(** ** Failures of the relocator *)

(** X2. When the category path is a regular file, [move_file] of a
    regular file raises [NotADirectoryError] and changes nothing. *)
Theorem move_file_category_is_file (s d file : path) (category : pystr)
    (w : world) (data x : list Byte.byte) :
  fs_lookup file (disk w) = Some (File data) ->
  fs_lookup (d ++ [category]) (disk w) = Some (File x) ->
  move_file (FileOrganizer_init s d) file category w
  = Raises NotADirectoryError w.
Proof.
  intros Hfile Hcat. rewrite move_file_init. cbv zeta.
  set (nf := normalize (stem (name file)) ++ suffix (name file)).
  assert (Hfree : fs_lookup ((d ++ [category]) ++ [nf]) (disk w) = None).
  { rewrite fs_lookup_app, Hcat. reflexivity. }
  unfold bind, path_exists.
  rewrite (lookup_some_decide _ _ _ Hcat). simpl.
  rewrite (lookup_none_decide _ _ Hfree). simpl.
  exact (os_replace_into_file file (d ++ [category]) nf data x w
           Hfile Hfree Hcat).
Qed.

(** Making an empty directory creates no other path. *)
Lemma fs_lookup_put_dir_other (p : path) (n : pystr) (q : path) (t : node) :
  fs_lookup q t = None ->
  q <> p ++ [n] ->
  fs_lookup q (modify p (on_dir (put_entry n (Dir []))) t) = None.
Proof.
  intros Hq Hne.
  destruct (path_trichotomy p q)
    as [[r ->]|[[r ->]|(x & a & b & p' & q' & Hab & -> & ->)]].
  - rewrite fs_lookup_modify_below.
    rewrite fs_lookup_app in Hq.
    destruct (fs_lookup p t) as [[d0|es0]|]; try reflexivity.
    + destruct r; [discriminate|reflexivity].
    + destruct r as [|m r]; simpl in *; [discriminate|].
      destruct (decide (m = n)) as [->|Hmn].
      * rewrite find_entry_put_eq.
        destruct r; [exfalso; apply Hne; reflexivity|reflexivity].
      * rewrite find_entry_put_ne by exact Hmn. exact Hq.
  - rewrite fs_lookup_modify_above, Hq. reflexivity.
  - rewrite fs_lookup_modify_aside by exact Hab. exact Hq.
Qed.

Lemma os_replace_missing (src dst : path) (w : world) :
  fs_lookup src (disk w) = None ->
  lookup_error src (disk w) = false ->
  os_replace src dst w = Raises FileNotFoundError w.
Proof. intros H E. unfold os_replace. rewrite H, E. reflexivity. Qed.

(** A new empty directory under a free name puts no regular file on the
    way of any path. *)
Lemma lookup_error_put_dir (p : path) (n : pystr) :
  forall (q : path) (t : node),
    fs_lookup (p ++ [n]) t = None ->
    lookup_error q (modify p (on_dir (put_entry n (Dir []))) t)
    = lookup_error q t.
Proof.
  induction p as [|a p IH]; intros q t Hfree.
  - destruct t as [data|es]; [reflexivity|].
    simpl in Hfree. destruct q as [|m q]; [reflexivity|]. simpl.
    destruct (decide (m = n)) as [->|Hmn].
    + rewrite find_entry_put_eq.
      destruct (find_entry n es); [discriminate|].
      destruct q; reflexivity.
    + rewrite find_entry_put_ne by exact Hmn. reflexivity.
  - destruct t as [data|es]; [reflexivity|].
    simpl in Hfree |- *.
    destruct (find_entry a es) as [c|] eqn:Ea; [|reflexivity].
    destruct q as [|m q]; [reflexivity|]. simpl.
    destruct (decide (m = a)) as [->|Hma].
    + rewrite find_entry_put_eq, Ea. apply IH. exact Hfree.
    + rewrite find_entry_put_ne by exact Hma. reflexivity.
Qed.

(** X3. [move_file] on a source path that does not exist, no component
    of it being a regular file, with a directory as destination folder and
    a source path that is not the category path itself. When the category
    directory is missing it is created, [FileNotFoundError] is raised and
    the new directory is left behind, empty. When the category directory
    stands and the target name in it is free, [FileNotFoundError] is
    raised and the world is unchanged. When the target name is taken, the
    call returns without an error and the world is unchanged. *)
Theorem move_file_missing_source (s d file : path) (category : pystr)
    (w : world) (des : list (pystr * node)) :
  fs_lookup d (disk w) = Some (Dir des) ->
  fs_lookup file (disk w) = None ->
  lookup_error file (disk w) = false ->
  file <> d ++ [category] ->
  (find_entry category des = None ->
   exists w',
     move_file (FileOrganizer_init s d) file category w
     = Raises FileNotFoundError w'
     /\ fs_lookup (d ++ [category]) (disk w') = Some (Dir [])
     /\ syscalls w' = syscalls w ++ [EvMkdir (d ++ [category])]
     /\ stdout w' = stdout w)
  /\ (forall ces,
         find_entry category des = Some (Dir ces) ->
         find_entry (normalize (stem (name file)) ++ suffix (name file)) ces
         = None ->
         move_file (FileOrganizer_init s d) file category w
         = Raises FileNotFoundError w)
  /\ (forall ces taken,
         find_entry category des = Some (Dir ces) ->
         find_entry (normalize (stem (name file)) ++ suffix (name file)) ces
         = Some taken ->
         move_file (FileOrganizer_init s d) file category w = Returns tt w).
Proof.
  intros Hd Hfile Herr Hne.
  set (nf := normalize (stem (name file)) ++ suffix (name file)).
  assert (Hcatl : fs_lookup (d ++ [category]) (disk w)
                  = find_entry category des).
  { rewrite fs_lookup_app, Hd. simpl.
    destruct (find_entry category des); reflexivity. }
  split; [|split].
  - intros Hcat. rewrite Hcat in Hcatl.
    rewrite move_file_init. cbv zeta. fold nf.
    unfold bind at 1. unfold path_exists at 1.
    rewrite (lookup_none_decide _ _ Hcatl). simpl.
    unfold bind at 1.
    rewrite (mkdir_fresh true false d category des w Hd Hcatl).
    set (w1 := set_disk _ _ w).
    assert (Hcat1 : fs_lookup (d ++ [category]) (disk w1) = Some (Dir [])).
    { subst w1. simpl. rewrite fs_lookup_modify_below, Hd. simpl.
      rewrite find_entry_put_eq. reflexivity. }
    assert (Hfree : fs_lookup ((d ++ [category]) ++ [nf]) (disk w1) = None).
    { rewrite fs_lookup_app, Hcat1. reflexivity. }
    assert (Hfile1 : fs_lookup file (disk w1) = None).
    { subst w1. simpl. apply fs_lookup_put_dir_other; assumption. }
    assert (Herr1 : lookup_error file (disk w1) = false).
    { subst w1. simpl. rewrite lookup_error_put_dir; assumption. }
    unfold bind, path_exists. rewrite (lookup_none_decide _ _ Hfree). simpl.
    exists w1. split; [apply os_replace_missing; assumption|].
    split; [exact Hcat1|]. split; reflexivity.
  - intros ces Hcat Hnf. rewrite Hcat in Hcatl.
    assert (Hfree : fs_lookup ((d ++ [category]) ++ [nf]) (disk w) = None).
    { rewrite fs_lookup_app, Hcatl. simpl. fold nf in Hnf. rewrite Hnf.
      reflexivity. }
    rewrite move_file_init. cbv zeta. fold nf.
    unfold bind, path_exists.
    rewrite (lookup_some_decide _ _ _ Hcatl). simpl.
    rewrite (lookup_none_decide _ _ Hfree). simpl.
    apply os_replace_missing; assumption.
  - intros ces taken Hcat Hnf. rewrite Hcat in Hcatl.
    assert (Htaken : fs_lookup ((d ++ [category]) ++ [nf]) (disk w)
                     = Some taken).
    { rewrite fs_lookup_app, Hcatl. simpl. fold nf in Hnf. rewrite Hnf.
      reflexivity. }
    rewrite move_file_init. cbv zeta. fold nf.
    unfold bind, path_exists.
    rewrite (lookup_some_decide _ _ _ Hcatl). simpl.
    rewrite (lookup_some_decide _ _ _ Htaken). reflexivity.
Qed.

(** ** The relocator loses no other file *)

Lemma mkdir_here_keeps_files_any (exist_ok : bool) (p : path) (w w1 : world) :
  final_world (mkdir_here exist_ok p w) = Some w1 ->
  forall q data,
    fs_lookup q (disk w) = Some (File data) ->
    fs_lookup q (disk w1) = Some (File data).
Proof.
  unfold mkdir_here, try_except.
  destruct (os_mkdir p w) as [[] wa|e wa|] eqn:E; [| |discriminate].
  - intros [= <-]. apply (os_mkdir_returns p w wa E).
  - pose proof (os_mkdir_raises _ _ _ _ E) as ->.
    destruct e; unfold bind, is_dir;
      try (intros [= <-]; auto);
      destruct (negb exist_ok || _); intros [= <-]; auto.
Qed.

Lemma mkdir_rev_keeps_files (rp : list pystr) :
  forall parents exist_ok w w1,
    final_world (mkdir_rev parents exist_ok rp w) = Some w1 ->
    forall q data,
      fs_lookup q (disk w) = Some (File data) ->
      fs_lookup q (disk w1) = Some (File data).
Proof.
  induction rp as [|n rp IH]; intros parents exist_ok w w1 H.
  - apply (mkdir_here_keeps_files_any exist_ok []). rewrite <- H.
    reflexivity.
  - cbn [mkdir_rev] in H. unfold try_except in H.
    destruct (os_mkdir (rev (n :: rp)) w) as [[] wa|e wa|] eqn:E;
      [| |discriminate].
    + injection H as <-. apply (os_mkdir_returns _ w wa E).
    + pose proof (os_mkdir_raises _ _ _ _ E) as ->.
      destruct e;
        try (apply (mkdir_here_keeps_files_any exist_ok (rev (n :: rp)));
             unfold mkdir_here, try_except; rewrite E; exact H).
      destruct parents; [|injection H as <-; auto].
      unfold bind in H.
      destruct (mkdir_rev true true rp w) as [[] wa|e wa|] eqn:Ea;
        [| |discriminate].
      * intros q data Hq.
        apply (mkdir_here_keeps_files_any exist_ok _ wa w1 H).
        apply (IH true true w wa); [rewrite Ea; reflexivity|exact Hq].
      * injection H as <-. apply (IH true true w wa). rewrite Ea. reflexivity.
Qed.

(** Removing an entry leaves the regular files that do not lie under it,
    and creates no path. *)
Lemma fs_lookup_remove_other_file (p : path) (n : pystr) (q : path) (t : node)
    (data : list Byte.byte) :
  fs_lookup q t = Some (File data) ->
  ~ (p ++ [n]) `prefix_of` q ->
  fs_lookup q (modify p (on_dir (remove_entry n)) t) = Some (File data).
Proof.
  intros Hq Hpre.
  destruct (path_trichotomy p q)
    as [[r ->]|[[r ->]|(x & a & b & p' & q' & Hab & -> & ->)]].
  - rewrite fs_lookup_modify_below. rewrite fs_lookup_app in Hq.
    destruct (fs_lookup p t) as [[d0|es0]|]; try discriminate.
    + destruct r; [exact Hq|discriminate].
    + destruct r as [|m r]; simpl in *; [discriminate|].
      rewrite find_entry_remove_ne; [exact Hq|].
      intros ->. apply Hpre. exists r. rewrite <- app_assoc. reflexivity.
  - rewrite fs_lookup_modify_above, Hq. simpl.
    rewrite modify_on_dir_file. reflexivity.
  - rewrite fs_lookup_modify_aside by exact Hab. exact Hq.
Qed.

Lemma fs_lookup_remove_none (p : path) (n : pystr) (q : path) (t : node) :
  fs_lookup q t = None ->
  fs_lookup q (modify p (on_dir (remove_entry n)) t) = None.
Proof.
  intros Hq.
  destruct (path_trichotomy p q)
    as [[r ->]|[[r ->]|(x & a & b & p' & q' & Hab & -> & ->)]].
  - rewrite fs_lookup_modify_below. rewrite fs_lookup_app in Hq.
    destruct (fs_lookup p t) as [[d0|es0]|]; try reflexivity.
    + destruct r; [discriminate|reflexivity].
    + destruct r as [|m r]; simpl in *; [discriminate|].
      destruct (decide (m = n)) as [->|Hmn].
      * rewrite find_entry_remove_eq. reflexivity.
      * rewrite find_entry_remove_ne by exact Hmn. exact Hq.
  - rewrite fs_lookup_modify_above, Hq. reflexivity.
  - rewrite fs_lookup_modify_aside by exact Hab. exact Hq.
Qed.

Lemma os_replace_keeps_files (src tp : path) (tn : pystr) (w w' : world)
    (q : path) (data : list Byte.byte) :
  final_world (os_replace src (tp ++ [tn]) w) = Some w' ->
  fs_lookup (tp ++ [tn]) (disk w) = None ->
  ~ src `prefix_of` q ->
  fs_lookup q (disk w) = Some (File data) ->
  fs_lookup q (disk w') = Some (File data).
Proof.
  intros Hfin Hfree Hpre Hq. unfold os_replace in Hfin.
  destruct (fs_lookup src (disk w)) as [n|] eqn:Esrc.
  2: { destruct (lookup_error src (disk w)); injection Hfin as <-; exact Hq. }
  destruct (decide (src = tp ++ [tn])); [injection Hfin as <-; exact Hq|].
  destruct (bool_decide (src `prefix_of` tp ++ [tn])).
  { destruct n; injection Hfin as <-; exact Hq. }
  rewrite parent_snoc, Hfree in Hfin.
  destruct (fs_lookup tp (disk w)) as [[x|es]|].
  - injection Hfin as <-. exact Hq.
  - injection Hfin as <-. cbn [disk set_disk]. rewrite fs_put_snoc.
    assert (Hne : src <> []).
    { intros ->. apply Hpre. apply prefix_nil. }
    rewrite (path_snoc src Hne) in Hpre |- *. rewrite fs_remove_snoc.
    apply fs_lookup_put_fresh_file.
    + apply fs_lookup_remove_none. exact Hfree.
    + apply fs_lookup_remove_other_file; assumption.
  - destruct (lookup_error (tp ++ [tn]) (disk w)); injection Hfin as <-;
      exact Hq.
Qed.

(** X4. Whatever the outcome of [move_file] on a path that is no
    directory, every other regular file is afterwards where it was, with
    its content: nothing is overwritten and nothing else is moved. *)
Theorem move_file_keeps_other_files (s d file : path) (category : pystr)
    (w w' : world) (q : path) (data : list Byte.byte) :
  (forall es, fs_lookup file (disk w) <> Some (Dir es)) ->
  final_world (move_file (FileOrganizer_init s d) file category w) = Some w' ->
  q <> file ->
  fs_lookup q (disk w) = Some (File data) ->
  fs_lookup q (disk w') = Some (File data).
Proof.
  intros Hnodir Hfin Hqf Hq.
  assert (Hpre : ~ file `prefix_of` q).
  { intros [r ->]. rewrite fs_lookup_app in Hq.
    destruct (fs_lookup file (disk w)) as [[x|es]|] eqn:E; try discriminate.
    - destruct r; [apply Hqf; apply app_nil_r|discriminate].
    - exact (Hnodir es eq_refl). }
  rewrite move_file_init in Hfin. cbv zeta in Hfin.
  set (nf := normalize (stem (name file)) ++ suffix (name file)) in *.
  unfold bind at 1 in Hfin. unfold path_exists at 1 in Hfin.
  assert (Hafter : forall w1,
             fs_lookup q (disk w1) = Some (File data) ->
             final_world
               ((let* taken := path_exists ((d ++ [category]) ++ [nf]) in
                 if negb taken
                 then os_replace file ((d ++ [category]) ++ [nf])
                 else ret tt) w1) = Some w' ->
             fs_lookup q (disk w') = Some (File data)).
  { intros w1 Hq1 H.
    destruct (fs_lookup ((d ++ [category]) ++ [nf]) (disk w1)) as [y|] eqn:Ef;
      unfold bind, path_exists in H.
    - rewrite (lookup_some_decide _ _ _ Ef) in H. simpl in H.
      injection H as <-. exact Hq1.
    - rewrite (lookup_none_decide _ _ Ef) in H. simpl in H.
      exact (os_replace_keeps_files file (d ++ [category]) nf w1 w' q data
               H Ef Hpre Hq1). }
  destruct (bool_decide (is_Some (fs_lookup (d ++ [category]) (disk w))));
    simpl in Hfin.
  - unfold bind at 1 in Hfin. unfold ret at 1 in Hfin.
    exact (Hafter w Hq Hfin).
  - unfold bind at 1 in Hfin.
    destruct (mkdir true false (d ++ [category]) w) as [[] w1|e w1|] eqn:Emk;
      [| |discriminate].
    + apply (Hafter w1); [|exact Hfin].
      apply (mkdir_rev_keeps_files (rev (d ++ [category])) true false w w1);
        [|exact Hq].
      unfold mkdir in Emk. rewrite Emk. reflexivity.
    + injection Hfin as <-.
      apply (mkdir_rev_keeps_files (rev (d ++ [category])) true false w w1);
        [|exact Hq].
      unfold mkdir in Emk. rewrite Emk. reflexivity.
Qed.

(** ** The classifier names one of six categories *)

Lemma first_category_in (ext : pystr) (items : list (pystr * list pystr)) :
  first_category ext items ∈ map fst items ++ [py "Other"].
Proof.
  induction items as [|[cat exts] items IH]; simpl.
  - left.
  - destruct (bool_decide (ext ∈ exts)); [left|right; exact IH].
Qed.

(** X5. On an instance made by the constructor, [get_category] returns
    for every path, leaves the world as it is, and its result is one of
    [Audio], [Docs], [Images], [Video], [Archives] and [Other]. *)
Theorem get_category_among_six (s d file : path) (w : world) :
  exists cat,
    get_category (FileOrganizer_init s d) file w = Returns cat w
    /\ cat ∈ [py "Audio"; py "Docs"; py "Images"; py "Video"; py "Archives";
              py "Other"].
Proof.
  rewrite get_category_init. eexists. split; [reflexivity|].
  apply (first_category_in _ categories).
Qed.

(** ** The pruner: bad roots, repeated runs, the rest of the disk *)

(** X6. On a root that is a regular file the pruner raises
    [NotADirectoryError], and on a root that does not exist (no component
    of it being a regular file) [FileNotFoundError]; in both cases the
    world is unchanged. *)
Theorem remove_empty_folders_bad_root (fuel : nat) (self : instance)
    (root : path) (w : world) :
  (forall data,
      fs_lookup root (disk w) = Some (File data) ->
      remove_empty_folders (S fuel) self (Some root) w
      = Raises NotADirectoryError w)
  /\ (fs_lookup root (disk w) = None ->
      lookup_error root (disk w) = false ->
      remove_empty_folders (S fuel) self (Some root) w
      = Raises FileNotFoundError w).
Proof.
  split.
  - intros data H. rewrite remove_empty_folders_step.
    unfold bind, iterdir. rewrite H. reflexivity.
  - intros H He. rewrite remove_empty_folders_step.
    unfold bind, iterdir. rewrite H, He. reflexivity.
Qed.

Lemma pruned_idempotent (t : node) : pruned (pruned t) = pruned t.
Proof.
  induction t as [d|es IH] using node_nested_ind; [reflexivity|].
  rewrite !pruned_dir. f_equal.
  induction es as [|[n c] es IHes]; [reflexivity|].
  inversion IH as [|? ? Hc IH']; subst. simpl in Hc.
  destruct c as [d|ces].
  - cbn [pruned_entries]. f_equal. exact (IHes IH').
  - rewrite pruned_entries_cons_dir.
    destruct (pruned_entries ces) as [|e pces] eqn:Ep; [exact (IHes IH')|].
    assert (Hc' : pruned_entries (e :: pces) = e :: pces)
      by (rewrite !pruned_dir, Ep in Hc; congruence).
    rewrite pruned_entries_cons_dir, Hc'.
    f_equal. exact (IHes IH').
Qed.

Lemma pruned_entries_idempotent (es : list (pystr * node)) :
  pruned_entries (pruned_entries es) = pruned_entries es.
Proof.
  pose proof (pruned_idempotent (Dir es)) as H.
  rewrite !pruned_dir in H. congruence.
Qed.

(** Nothing is left to remove in a pruned tree. *)
Lemma removed_pruned (t : node) : forall here, removed here (pruned t) = [].
Proof.
  induction t as [d|es IH] using node_nested_ind; intros here;
    [reflexivity|].
  rewrite pruned_dir, removed_dir.
  induction es as [|[n c] es IHes]; [reflexivity|].
  inversion IH as [|? ? Hc IH']; subst. simpl in Hc.
  destruct c as [d|ces].
  - cbn [pruned_entries removed_entries]. exact (IHes IH').
  - rewrite pruned_entries_cons_dir.
    destruct (pruned_entries ces) as [|e pces] eqn:Ep; [exact (IHes IH')|].
    rewrite removed_entries_cons_dir.
    pose proof (Hc (here ++ [n])) as H1.
    rewrite pruned_dir, removed_dir, Ep in H1. rewrite H1.
    pose proof (pruned_entries_idempotent ces) as H2. rewrite Ep in H2.
    rewrite H2. simpl. exact (IHes IH').
Qed.

Lemma pruned_entries_NoDup (es : list (pystr * node)) :
  NoDup (map fst es) -> NoDup (map fst (pruned_entries es)).
Proof.
  induction es as [|[n c] es IH]; intros H; [exact H|].
  inversion H as [|? ? Hn H']; subst.
  assert (Hn' : n ∉ map fst (pruned_entries es))
    by (intros Hin; apply Hn; apply pruned_names; exact Hin).
  destruct c as [d|ces].
  - cbn [pruned_entries map fst]. constructor; auto.
  - rewrite pruned_entries_cons_dir.
    destruct (pruned_entries ces); [auto|].
    cbn [map fst]. constructor; auto.
Qed.

Lemma pruned_well_formed (t : node) : well_formed t -> well_formed (pruned t).
Proof.
  induction t as [d|es IH] using node_nested_ind; intros Hwf; [exact I|].
  rewrite pruned_dir. apply well_formed_dir in Hwf as [Hnd Hwf].
  apply well_formed_dir. split; [apply pruned_entries_NoDup; exact Hnd|].
  clear Hnd. induction es as [|[n c] es IHes]; [constructor|].
  inversion IH as [|? ? Hc IH']; subst.
  inversion Hwf as [|? ? Hwc Hwf']; subst. simpl in Hc, Hwc.
  destruct c as [d|ces].
  - cbn [pruned_entries]. constructor; [exact I|exact (IHes IH' Hwf')].
  - rewrite pruned_entries_cons_dir.
    destruct (pruned_entries ces) as [|e pces] eqn:Ep; [exact (IHes IH' Hwf')|].
    constructor; [|exact (IHes IH' Hwf')].
    simpl snd. specialize (Hc Hwc). rewrite pruned_dir, Ep in Hc. exact Hc.
Qed.

Lemma pruned_height (t : node) : height (pruned t) <= height t.
Proof.
  induction t as [d|es IH] using node_nested_ind; [reflexivity|].
  rewrite pruned_dir.
  destruct (height (Dir es)) as [|k] eqn:Ek; [discriminate|].
  apply height_dir.
  assert (Hk : Forall (fun e => height e.2 <= k) es)
    by (apply height_dir; rewrite Ek; reflexivity).
  clear Ek. induction es as [|[n c] es IHes]; [constructor|].
  inversion IH as [|? ? Hc IH']; subst.
  inversion Hk as [|? ? Hkc Hk']; subst. simpl in Hc, Hkc.
  destruct c as [d|ces].
  - cbn [pruned_entries]. constructor; [exact Hkc|exact (IHes IH' Hk')].
  - rewrite pruned_entries_cons_dir.
    destruct (pruned_entries ces) as [|e pces] eqn:Ep; [exact (IHes IH' Hk')|].
    constructor; [|exact (IHes IH' Hk')].
    simpl snd. rewrite pruned_dir, Ep in Hc. lia.
Qed.

(** X7. Pruning is idempotent: after a run of the pruner on a directory,
    a second run on the same directory returns, calls nothing and leaves
    the world as it is. *)
Theorem remove_empty_folders_twice (fuel : nat) (self : instance)
    (root : path) (w : world) (es : list (pystr * node)) :
  fs_lookup root (disk w) = Some (Dir es) ->
  well_formed (Dir es) ->
  height (Dir es) <= fuel ->
  exists w',
    remove_empty_folders fuel self (Some root) w = Returns tt w'
    /\ remove_empty_folders fuel self (Some root) w' = Returns tt w'.
Proof.
  intros Hr Hwf Hh. exists (pruned_world root es w).
  split; [apply remove_empty_folders_run; assumption|].
  assert (Hr' : fs_lookup root (disk (pruned_world root es w))
                = Some (Dir (pruned_entries es))).
  { unfold pruned_world. cbn [disk]. rewrite <- (app_nil_r root) at 1.
    rewrite (lookup_in_replaced root [] _ _ _ Hr). reflexivity. }
  set (w1 := pruned_world root es w) in *. clearbody w1.
  rewrite (remove_empty_folders_run fuel self root w1 (pruned_entries es) Hr').
  - f_equal. unfold pruned_world.
    rewrite pruned_entries_idempotent.
    rewrite (modify_same root _ _ Hr').
    pose proof (removed_pruned (Dir es) root) as Hrm.
    rewrite pruned_dir, removed_dir in Hrm. rewrite Hrm. simpl.
    rewrite app_nil_r. destruct w1; reflexivity.
  - rewrite <- pruned_dir. apply pruned_well_formed. exact Hwf.
  - rewrite <- pruned_dir. pose proof (pruned_height (Dir es)). lia.
Qed.

(** X8. The pruner changes nothing beside its root: after a run on
    [root], the subtree at every path that neither lies under [root] nor
    leads to it is what it was. *)
Theorem remove_empty_folders_elsewhere (fuel : nat) (self : instance)
    (root : path) (w : world) (es : list (pystr * node)) :
  fs_lookup root (disk w) = Some (Dir es) ->
  well_formed (Dir es) ->
  height (Dir es) <= fuel ->
  exists w',
    remove_empty_folders fuel self (Some root) w = Returns tt w'
    /\ forall q,
        ~ root `prefix_of` q -> ~ q `prefix_of` root ->
        fs_lookup q (disk w') = fs_lookup q (disk w).
Proof.
  intros Hr Hwf Hh. exists (pruned_world root es w).
  split; [apply remove_empty_folders_run; assumption|].
  intros q H1 H2. unfold pruned_world. cbn [disk].
  destruct (path_trichotomy root q)
    as [[r ->]|[[r ->]|(x & a & b & p' & q' & Hab & -> & ->)]].
  - exfalso. apply H1. exists r. reflexivity.
  - exfalso. apply H2. exists r. reflexivity.
  - apply fs_lookup_modify_aside. exact Hab.
Qed.

(** ** The archive expander: success, a missing [Archives], other
    exceptions *)

Lemma fs_lookup_remove_unrelated (p : path) (n : pystr) (q : path) (t : node) :
  ~ (p ++ [n]) `prefix_of` q ->
  ~ q `prefix_of` (p ++ [n]) ->
  fs_lookup q (modify p (on_dir (remove_entry n)) t) = fs_lookup q t.
Proof.
  intros H1 H2.
  destruct (path_trichotomy p q)
    as [[r ->]|[[r ->]|(x & a & b & p' & q' & Hab & -> & ->)]].
  - rewrite fs_lookup_modify_below, fs_lookup_app.
    destruct r as [|m r].
    + exfalso. apply H2. rewrite app_nil_r. exists [n]. reflexivity.
    + destruct (fs_lookup p t) as [[d0|es0]|]; try reflexivity.
      simpl. rewrite find_entry_remove_ne; [reflexivity|].
      intros ->. apply H1. exists r. rewrite <- app_assoc. reflexivity.
  - exfalso. apply H2. exists (r ++ [n]). rewrite app_assoc. reflexivity.
  - apply fs_lookup_modify_aside. exact Hab.
Qed.

(** X9. A successful extraction: when the decoder of a regular file that
    does not lie in its own subfolder runs without failure, the step
    returns without printing, the subfolder holds what the decoder
    extracted and the archive is gone, unlinked after the extraction. *)
Theorem extract_step_success (archive_dir archive_path : path) (w w1 : world)
    (decoder : node -> path -> path -> extraction) (data : list Byte.byte) :
  let subdir := archive_dir ++ [stem (name archive_path)] in
  mkdir false true subdir w = Returns tt w1 ->
  decoder_of (lower (suffix (name archive_path))) = Some decoder ->
  fs_lookup archive_path (disk w) = Some (File data) ->
  ~ subdir `prefix_of` archive_path ->
  failure (decoder (disk w1) archive_path subdir) = None ->
  exists w',
    extract_step archive_dir archive_path w = Returns tt w'
    /\ fs_lookup archive_path (disk w') = None
    /\ fs_lookup subdir (disk w')
       = Some (Dir (extracted (decoder (disk w1) archive_path subdir)))
    /\ stdout w' = stdout w
    /\ syscalls w'
       = syscalls w1 ++ [EvExtract archive_path subdir; EvUnlink archive_path].
Proof.
  intros subdir Hmk Hdec Hfile Hout Hok.
  rewrite mkdir_noparents in Hmk.
  assert (Hfin : final_world (mkdir_here true subdir w) = Some w1)
    by (rewrite Hmk; reflexivity).
  destruct (mkdir_here_stands _ _ _ _ Hmk) as [ses Hses]. fold subdir in Hses.
  set (r := decoder (disk w1) archive_path subdir) in *.
  set (t2 := modify subdir (on_dir (fun _ => extracted r)) (disk w1)).
  assert (Hfile2 : fs_lookup archive_path t2 = Some (File data)).
  { apply fs_lookup_modify_file_outside; [|exact Hout].
    eapply mkdir_here_keeps_files; eauto. }
  assert (Hsub2 : fs_lookup subdir t2 = Some (Dir (extracted r))).
  { subst t2. rewrite <- (app_nil_r subdir) at 1.
    rewrite fs_lookup_modify_below, Hses. reflexivity. }
  assert (Hne : archive_path <> []).
  { intros E. rewrite E in Hfile2. simpl in Hfile2. injection Hfile2 as Ht.
    rewrite Ht in Hsub2. unfold subdir in Hsub2.
    destruct archive_dir; discriminate. }
  assert (Hrun : extract_step archive_dir archive_path w
                 = Returns tt
                     (World (fs_remove archive_path t2) (stdout w1)
                        (syscalls w1
                         ++ [EvExtract archive_path subdir;
                             EvUnlink archive_path]))).
  { unfold extract_step, try_except. rewrite extract_body_eq.
    fold subdir. rewrite Hmk, Hdec.
    unfold bind, run_decoder. fold r. rewrite Hok.
    unfold unlink. cbn [disk set_disk]. fold t2. rewrite Hfile2.
    unfold set_disk. cbn [stdout syscalls]. rewrite <- app_assoc.
    reflexivity. }
  eexists. split; [exact Hrun|]. cbn [disk stdout syscalls].
  rewrite (path_snoc archive_path Hne) in Hout, Hfile2 |- *.
  rewrite fs_remove_snoc.
  split; [apply fs_lookup_remove_same|].
  split; [|split; [|reflexivity]].
  - rewrite fs_lookup_remove_unrelated; [exact Hsub2| |exact Hout].
    exact (file_not_above_dir _ _ _ _ _ Hfile2 Hsub2).
  - apply (silent_mkdir_here_world subdir). exact Hfin.
Qed.

(** X10. Without an [Archives] directory the loop stops at its first
    path, whatever its suffix: the subfolder cannot be made,
    [FileNotFoundError] is not among the exceptions caught, and the run
    ends there with the world unchanged. *)
Theorem extract_loop_without_archives_dir (archive_dir archive_path : path)
    (rest : list path) (w : world) :
  fs_lookup archive_dir (disk w) = None ->
  lookup_error (archive_dir ++ [stem (name archive_path)]) (disk w) = false ->
  extract_loop archive_dir (archive_path :: rest) w = Raises FileNotFoundError w.
Proof.
  intros Hdir Herr. unfold extract_loop. cbn [for_each]. unfold bind at 1.
  unfold extract_step, try_except. rewrite extract_body_eq.
  rewrite mkdir_here_cases, parent_snoc.
  rewrite fs_lookup_app, Hdir, Herr. reflexivity.
Qed.

(** X11. Only [shutil.ReadError] and [rarfile.Error] are caught: when the
    decoder stops with another exception, the step raises it, nothing is
    printed, the archive is not unlinked and the remaining paths are not
    visited. *)
Theorem extract_loop_other_exception (archive_dir archive_path : path)
    (rest : list path) (w w1 : world)
    (decoder : node -> path -> path -> extraction) (e : exn) :
  let subdir := archive_dir ++ [stem (name archive_path)] in
  mkdir false true subdir w = Returns tt w1 ->
  decoder_of (lower (suffix (name archive_path))) = Some decoder ->
  failure (decoder (disk w1) archive_path subdir) = Some e ->
  (forall msg, e <> ReadError msg) ->
  (forall msg, e <> RarError msg) ->
  extract_loop archive_dir (archive_path :: rest) w
  = Raises e
      (World
         (modify subdir
            (on_dir (fun _ => extracted (decoder (disk w1) archive_path subdir)))
            (disk w1))
         (stdout w)
         (syscalls w1 ++ [EvExtract archive_path subdir])).
Proof.
  intros subdir Hmk Hdec Hfail H1 H2.
  rewrite mkdir_noparents in Hmk.
  assert (Hout : stdout w1 = stdout w).
  { apply (silent_mkdir_here_world subdir). rewrite Hmk. reflexivity. }
  unfold extract_loop. cbn [for_each]. unfold bind at 1.
  unfold extract_step, try_except. rewrite extract_body_eq.
  fold subdir. rewrite Hmk, Hdec.
  unfold bind at 1. unfold run_decoder. rewrite Hfail.
  unfold set_disk. rewrite Hout.
  destruct e; try reflexivity.
  - exfalso. exact (H1 msg eq_refl).
  - exfalso. exact (H2 msg eq_refl).
Qed.

(** ** The tree walker *)

Lemma moves_only_ret {A} (a : A) : moves_only (ret a).
Proof.
  intros w. simpl. split; [reflexivity|]. exists [].
  rewrite app_nil_r. split; [reflexivity|constructor].
Qed.

Lemma moves_only_raise {A} (e : exn) : moves_only (@raise A e).
Proof.
  intros w. simpl. split; [reflexivity|]. exists [].
  rewrite app_nil_r. split; [reflexivity|constructor].
Qed.

Lemma moves_only_step (w w' w'' : world) :
  (stdout w' = stdout w
   /\ exists evs, syscalls w' = syscalls w ++ evs
                  /\ Forall (fun ev => is_move_event ev = true) evs) ->
  (stdout w'' = stdout w'
   /\ exists evs, syscalls w'' = syscalls w' ++ evs
                  /\ Forall (fun ev => is_move_event ev = true) evs) ->
  stdout w'' = stdout w
  /\ exists evs, syscalls w'' = syscalls w ++ evs
                 /\ Forall (fun ev => is_move_event ev = true) evs.
Proof.
  intros (H1 & evs1 & E1 & F1) (H2 & evs2 & E2 & F2).
  split; [congruence|]. exists (evs1 ++ evs2).
  split; [rewrite E2, E1, app_assoc; reflexivity|].
  apply Forall_app. auto.
Qed.

Lemma moves_only_bind {A B} (m : M A) (k : A -> M B) :
  moves_only m -> (forall a, moves_only (k a)) -> moves_only (bind m k).
Proof.
  intros Hm Hk w. unfold bind. specialize (Hm w).
  destruct (m w) as [a w'|e w'|]; simpl in Hm |- *; try assumption.
  specialize (Hk a w').
  destruct (final_world (k a w')) as [w''|]; [|contradiction].
  exact (moves_only_step w w' w'' Hm Hk).
Qed.

Lemma moves_only_try_except {A} (body : M A) (handler : exn -> option (M A)) :
  moves_only body ->
  (forall e h, handler e = Some h -> moves_only h) ->
  moves_only (try_except body handler).
Proof.
  intros Hb Hh w. unfold try_except. specialize (Hb w).
  destruct (body w) as [a w'|e w'|]; simpl in Hb |- *; try assumption.
  destruct (handler e) as [h|] eqn:E; [|exact Hb].
  specialize (Hh e h E w').
  destruct (final_world (h w')) as [w''|]; [|contradiction].
  exact (moves_only_step w w' w'' Hb Hh).
Qed.

Lemma moves_only_for_each {A} (l : list A) (body : A -> M unit) :
  (forall x, moves_only (body x)) -> moves_only (for_each l body).
Proof.
  intros H. induction l as [|x l IH]; simpl.
  - apply moves_only_ret.
  - apply moves_only_bind; auto.
Qed.

Lemma moves_only_same {A} (m : M A) :
  (forall w, final_world (m w) = Some w) -> moves_only m.
Proof.
  intros H w. rewrite H. split; [reflexivity|]. exists [].
  rewrite app_nil_r. split; [reflexivity|constructor].
Qed.

Lemma moves_only_path_exists (p : path) : moves_only (path_exists p).
Proof. apply moves_only_same. reflexivity. Qed.

Lemma moves_only_is_dir (p : path) : moves_only (is_dir p).
Proof. apply moves_only_same. reflexivity. Qed.

Lemma moves_only_is_file (p : path) : moves_only (is_file p).
Proof. apply moves_only_same. reflexivity. Qed.

Lemma moves_only_glob (p : path) (f : pystr -> bool) : moves_only (glob p f).
Proof.
  apply moves_only_same. intros w. unfold glob.
  destruct (fs_lookup p (disk w)); reflexivity.
Qed.

Lemma moves_only_getattr (self : instance) (a : string) :
  moves_only (getattr self a).
Proof.
  unfold getattr.
  destruct (self !! a); [apply moves_only_ret|apply moves_only_raise].
Qed.

Lemma moves_only_get_path (self : instance) (a : string) :
  moves_only (get_path self a).
Proof.
  unfold get_path. apply moves_only_bind; [apply moves_only_getattr|].
  intros []; [apply moves_only_ret|apply moves_only_raise].
Qed.

Lemma moves_only_get_table (self : instance) (a : string) :
  moves_only (get_table self a).
Proof.
  unfold get_table. apply moves_only_bind; [apply moves_only_getattr|].
  intros []; [apply moves_only_raise|apply moves_only_ret].
Qed.

Lemma moves_only_one (w : world) (t : node) (ev : event) :
  is_move_event ev = true ->
  stdout (set_disk t ev w) = stdout w
  /\ exists evs, syscalls (set_disk t ev w) = syscalls w ++ evs
                 /\ Forall (fun ev => is_move_event ev = true) evs.
Proof.
  intros H. split; [reflexivity|]. exists [ev].
  split; [reflexivity|]. constructor; [exact H|constructor].
Qed.

Lemma moves_only_os_mkdir (p : path) : moves_only (os_mkdir p).
Proof.
  intros w. unfold os_mkdir.
  destruct (fs_lookup p (disk w));
    [exact (moves_only_raise (A := unit) FileExistsError w)|].
  destruct (fs_lookup (parent p) (disk w)) as [[d|es]|].
  - exact (moves_only_raise (A := unit) NotADirectoryError w).
  - cbn [final_world]. refine (moves_only_one w _ _ _). reflexivity.
  - destruct (lookup_error p (disk w));
      [exact (moves_only_raise (A := unit) NotADirectoryError w)
      |exact (moves_only_raise (A := unit) FileNotFoundError w)].
Qed.

Lemma moves_only_os_replace (src dst : path) : moves_only (os_replace src dst).
Proof.
  intros w. unfold os_replace.
  repeat (simpl;
          match goal with
          | |- context [match ?x with _ => _ end] =>
              lazymatch x with
              | context [match _ with _ => _ end] => fail
              | _ => destruct x
              end
          end);
    simpl; (split; [reflexivity|]);
    first [ exists []; rewrite app_nil_r; split; [reflexivity|constructor]
          | eexists; split; [reflexivity|repeat constructor] ].
Qed.

Lemma moves_only_mkdir_tail (exist_ok : bool) (p : path) (e : exn) :
  moves_only (let* d := is_dir p in
              if negb exist_ok || negb d then raise e else @ret unit tt).
Proof.
  apply moves_only_bind; [apply moves_only_is_dir|].
  intros d. destruct (negb exist_ok || negb d);
    [apply moves_only_raise|apply moves_only_ret].
Qed.

Lemma moves_only_mkdir_here (exist_ok : bool) (p : path) :
  moves_only (mkdir_here exist_ok p).
Proof.
  unfold mkdir_here. apply moves_only_try_except; [apply moves_only_os_mkdir|].
  intros e h H.
  destruct e; try discriminate; injection H as <-; apply moves_only_mkdir_tail.
Qed.

Lemma moves_only_mkdir_rev (parents exist_ok : bool) (rp : list pystr) :
  moves_only (mkdir_rev parents exist_ok rp).
Proof.
  revert parents exist_ok.
  induction rp as [|n rp IH]; intros parents exist_ok; simpl;
    (apply moves_only_try_except; [apply moves_only_os_mkdir|]);
    intros e h H;
    destruct e; try discriminate;
    try (injection H as <-; apply moves_only_mkdir_tail).
  destruct parents; [|discriminate]. injection H as <-.
  apply moves_only_bind; [apply IH|]. intros _. apply moves_only_mkdir_here.
Qed.

Lemma moves_only_move_file (self : instance) (file : path) (category : pystr) :
  moves_only (move_file self file category).
Proof.
  unfold move_file.
  apply moves_only_bind; [apply moves_only_get_path|]. intros d.
  apply moves_only_bind; [apply moves_only_path_exists|]. intros present.
  apply moves_only_bind.
  - destruct (negb present); [apply moves_only_mkdir_rev|apply moves_only_ret].
  - intros _. apply moves_only_bind; [apply moves_only_path_exists|].
    intros taken.
    destruct (negb taken); [apply moves_only_os_replace|apply moves_only_ret].
Qed.

Lemma moves_only_get_category (self : instance) (file : path) :
  moves_only (get_category self file).
Proof.
  unfold get_category. apply moves_only_bind; [apply moves_only_get_table|].
  intros items. apply moves_only_ret.
Qed.

(** X12. Whatever the instance and the disk, [organize_files] ends; it
    prints nothing, and the only system calls it makes are [mkdir] and
    [replace]: it deletes nothing. *)
Theorem organize_files_only_moves (self : instance) (w : world) :
  exists w',
    final_world (organize_files self w) = Some w'
    /\ stdout w' = stdout w
    /\ exists evs,
        syscalls w' = syscalls w ++ evs
        /\ Forall (fun ev => is_move_event ev = true) evs.
Proof.
  assert (H : moves_only (organize_files self)).
  { unfold organize_files.
    apply moves_only_bind; [apply moves_only_get_path|]. intros src.
    apply moves_only_bind; [apply moves_only_glob|]. intros elements.
    apply moves_only_for_each. intros element.
    apply moves_only_bind; [apply moves_only_is_file|]. intros f.
    destruct f; [|apply moves_only_ret].
    apply moves_only_bind; [apply moves_only_get_category|]. intros c.
    apply moves_only_move_file. }
  specialize (H w).
  destruct (final_world (organize_files self w)) as [w'|]; [|contradiction].
  exists w'. split; [reflexivity|exact H].
Qed.

(** Every path of the glob lies strictly below the start. *)
Lemma glob_rec_below (matches : pystr -> bool) (t : node) :
  forall here p, p ∈ glob_rec matches here t -> exists n q, p = here ++ n :: q.
Proof.
  induction t as [d|es IH] using node_nested_ind; intros here p Hp.
  - apply elem_of_nil in Hp. contradiction.
  - cbn [glob_rec] in Hp. apply elem_of_app in Hp as [Hp|Hp].
    + apply list_elem_of_fmap in Hp as (e & -> & _). exists e.1, [].
      reflexivity.
    + induction es as [|[n c] es IHes];
        [apply elem_of_nil in Hp; contradiction|].
      inversion IH as [|? ? Hc IH']; subst. simpl in Hc.
      apply elem_of_app in Hp as [Hp|Hp]; [|exact (IHes IH' Hp)].
      destruct (Hc _ _ Hp) as (m & q & ->).
      exists n, (m :: q). rewrite <- app_assoc. reflexivity.
Qed.

Lemma for_each_skip {A} (l : list A) (body : A -> M unit) (w : world) :
  (forall x, x ∈ l -> body x w = Returns tt w) ->
  for_each l body w = Returns tt w.
Proof.
  induction l as [|x l IH]; intros H; [reflexivity|].
  simpl. unfold bind. rewrite (H x) by left.
  apply IH. intros y Hy. apply H. right. exact Hy.
Qed.

(** X13. Directories are never moved: when no regular file lies below the
    source folder (or the source folder does not exist), [organize_files]
    returns and leaves the world as it is. *)
Theorem organize_files_without_files (s d : path) (w : world) :
  (forall q data, fs_lookup (s ++ q) (disk w) <> Some (File data)) ->
  organize_files (FileOrganizer_init s d) w = Returns tt w.
Proof.
  intros Hnone. unfold organize_files, get_path, getattr.
  rewrite init_source_folder. unfold bind at 1 2. unfold ret at 1 2.
  unfold bind, glob.
  destruct (fs_lookup s (disk w)) as [t|] eqn:Es; [|reflexivity].
  apply for_each_skip. intros p Hp.
  destruct (glob_rec_below match_any t s p Hp) as (n & q & ->).
  unfold is_file.
  destruct (fs_lookup (s ++ n :: q) (disk w)) as [[data|es]|] eqn:E;
    try reflexivity.
  exfalso. exact (Hnone (n :: q) data E).
Qed.

(** * The console application *)



Lemma load_data_directory (file_path : path) (es : list (pystr * node))
    (w : world) :
  fs_lookup file_path (disk w) = Some (Dir es) ->
  JSONDataLoader_load_data file_path w = Raises IsADirectoryError w.
Proof.
  intros H. unfold JSONDataLoader_load_data, try_except, bind, open_read.
  rewrite H. reflexivity.
Qed.


Lemma present_information_line (data_type : pystr) (data : json) (w : world) :
  ConsoleInformationPresenter_present_information data_type data w
  = print (console_line data_type data) w.
Proof.
  unfold ConsoleInformationPresenter_present_information, console_line.
  destruct (truthy data); reflexivity.
Qed.


(** The three lines one console presenter prints in [run]. *)
Lemma run_presenters (k : nat) (a b : json) (w : world) :
  for_each (replicate k ConsoleInformationPresenter_present_information)
    (fun present_information =>
       present_information (py "Address Book") a >>
       present_information (py "Notes") b >>
       present_information (py "Available Commands")
         (JString (py "help - all commands"))) w
  = Returns tt
      (World (disk w)
         (stdout w
          ++ concat
               (replicate k
                  [console_line (py "Address Book") a;
                   console_line (py "Notes") b;
                   py "Available Commands:" ++ [10%N]
                   ++ json_dumps (JString (py "help - all commands"))]))
         (syscalls w)).
Proof.
  revert w. induction k as [|k IH]; intros w.
  - simpl. rewrite app_nil_r. destruct w; reflexivity.
  - cbn [replicate for_each]. unfold bind at 1.
    unfold bind at 1. rewrite present_information_line.
    unfold print at 1. unfold bind at 1. rewrite present_information_line.
    unfold print at 1. rewrite present_information_line.
    unfold print at 1. rewrite IH. cbn [disk stdout syscalls concat].
    rewrite <- !app_assoc. reflexivity.
Qed.

(** X16. [run] with [k] console presenters and the JSON loader, when both
    files can be loaded (or are missing): each file is loaded once, the
    world being untouched; for each presenter three lines are printed, the
    address book, the notes and the available commands, the last never as
    [is empty]; then the bot is started in that world. *)
Theorem run_presents_then_starts_bot (k : nat) (a b : json) (w : world) :
  JSONDataLoader_load_data (cwd ++ [py "address_book.json"]) w = Returns a w ->
  JSONDataLoader_load_data (cwd ++ [py "notes_data.json"]) w = Returns b w ->
  ExtendedBot_run (replicate k ConsoleInformationPresenter_present_information)
    JSONDataLoader_load_data w
  = bot_main
      (World (disk w)
         (stdout w
          ++ concat
               (replicate k
                  [console_line (py "Address Book") a;
                   console_line (py "Notes") b;
                   py "Available Commands:" ++ [10%N]
                   ++ json_dumps (JString (py "help - all commands"))]))
         (syscalls w)).
Proof.
  intros Ha Hb. unfold ExtendedBot_run.
  unfold bind at 1. rewrite Ha. unfold bind at 1. rewrite Hb.
  unfold bind at 1. rewrite run_presenters. reflexivity.
Qed.

(** X17. When one of the two paths is a directory, [run] raises
    [IsADirectoryError] before anything is printed, whatever the
    presenters, and the bot is not started. *)
Theorem run_stops_on_directory
    (information_presenters : list (pystr -> json -> M unit)) (w : world) :
  (forall es,
      fs_lookup (cwd ++ [py "address_book.json"]) (disk w) = Some (Dir es) ->
      ExtendedBot_run information_presenters JSONDataLoader_load_data w
      = Raises IsADirectoryError w)
  /\ (forall es,
         fs_lookup (cwd ++ [py "notes_data.json"]) (disk w) = Some (Dir es) ->
         (exists a,
             JSONDataLoader_load_data (cwd ++ [py "address_book.json"]) w
             = Returns a w) ->
         ExtendedBot_run information_presenters JSONDataLoader_load_data w
         = Raises IsADirectoryError w).
Proof.
  split.
  - intros es H. unfold ExtendedBot_run. unfold bind at 1.
    rewrite (load_data_directory _ _ _ H). reflexivity.
  - intros es H [a Ha]. unfold ExtendedBot_run. unfold bind at 1.
    rewrite Ha. unfold bind at 1.
    rewrite (load_data_directory _ _ _ H). reflexivity.
Qed.

End Organizer.

(** * Sample runs *)

Example normalize_song :
  normalize sample_lower sample_translit (stem song_name) = py "pisnja_1".
Proof. reflexivity. Qed.

Example suffix_song : suffix song_name = py ".MP3".
Proof. reflexivity. Qed.

Lemma normalize_total_token_witness :
  normalize sample_lower sample_translit [] = [].
Proof.
  apply (normalize_total_token sample_lower sample_translit []).
  reflexivity.
Defined.

Lemma normalize_idempotent_witness :
  normalize sample_lower (fun s => s)
    (normalize sample_lower (fun s => s) (py "My_File1"))
  = normalize sample_lower (fun s => s) (py "My_File1").
Proof.
  apply (normalize_idempotent sample_lower (fun s => s) (py "My_File1")).
  - intros u _. reflexivity.
  - vm_compute. repeat constructor.
Defined.

Lemma get_category_by_extension_witness :
  get_category sample_lower (FileOrganizer_init [py "home"] [py "home"])
    [py "home"; song_name] music_world
  = Returns (py "Audio") music_world.
Proof.
  apply (proj1 (proj2 (get_category_by_extension sample_lower
                         [py "home"] [py "home"] [py "home"; song_name]
                         music_world))
           (py "Audio") [py ".mp3"; py ".wav"; py ".ogg"; py ".amr"] (py ".mp3")).
  - left.
  - left.
  - reflexivity.
Defined.

Lemma move_file_collision_skips_witness :
  move_file sample_lower sample_translit
    (FileOrganizer_init [py "home"] [py "home"])
    [py "home"; py "Old.mp3"] (py "Audio") music_world
  = Returns tt music_world.
Proof.
  apply (move_file_collision_skips sample_lower sample_translit).
  vm_compute. eauto.
Defined.

Lemma move_file_renames_stem_only_witness :
  (forall w',
      move_file sample_lower sample_translit
        (FileOrganizer_init [py "home"] [py "home"])
        [py "home"; song_name] (py "Audio") music_world
      = Returns tt w' ->
      fs_lookup [py "home"; py "Audio"; py "pisnja_1.MP3"] (disk w')
      = Some (File [])
      /\ fs_lookup [py "home"; song_name] (disk w') = None
      /\ List.last (syscalls w') (EvUnlink [])
         = EvReplace [py "home"; song_name]
             [py "home"; py "Audio"; py "pisnja_1.MP3"])
  /\ (forall des,
         fs_lookup [py "home"] (disk music_world) = Some (Dir des) ->
         (forall x, find_entry (py "Audio") des <> Some (File x)) ->
         exists w',
           move_file sample_lower sample_translit
             (FileOrganizer_init [py "home"] [py "home"])
             [py "home"; song_name] (py "Audio") music_world
           = Returns tt w')
  /\ stem song_name ++ suffix song_name = song_name.
Proof.
  apply (move_file_renames_stem_only sample_lower sample_translit
           [py "home"] [py "home"] [py "home"; song_name] (py "Audio")
           music_world []).
  - reflexivity.
  - reflexivity.
Defined.

Lemma organize_raises_attribute_error_witness :
  organize sample_lower sample_translit failing_unpack failing_rar 3
    (FileOrganizer_init [py "home"] [py "home"]) music_world
  = match organize_files sample_lower sample_translit
            (FileOrganizer_init [py "home"] [py "home"]) music_world with
    | Returns _ w' => Raises (AttributeError "root_dir") w'
    | Raises e w' => Raises e w'
    | OutOfFuel => OutOfFuel
    end.
Proof.
  apply (organize_raises_attribute_error sample_lower sample_translit
           failing_unpack failing_rar 3 [py "home"] [py "home"] music_world).
Defined.



Lemma remove_empty_folders_prunes_witness :
  exists w' log,
    remove_empty_folders 4 (FileOrganizer_init [py "home"] [py "home"])
      (Some [py "home"; py "empty"]) music_world
    = Returns tt w'
    /\ stdout w' = stdout music_world
    /\ syscalls w' = syscalls music_world ++ map EvRmdir log
    /\ (exists es', fs_lookup [py "home"; py "empty"] (disk w') = Some (Dir es'))
    /\ (forall q es',
           q <> [] ->
           fs_lookup ([py "home"; py "empty"] ++ q) (disk w') = Some (Dir es') ->
           es' <> [])
    /\ (forall q data,
           fs_lookup ([py "home"; py "empty"] ++ q) (disk w') = Some (File data)
           <-> fs_lookup ([py "home"; py "empty"] ++ q) (disk music_world)
               = Some (File data))
    /\ (forall p, p ∈ log ->
                  (exists n q, p = [py "home"; py "empty"] ++ n :: q)
                  /\ fs_lookup p (disk w') = None)
    /\ (forall l1 p l2 q,
           log = l1 ++ p :: l2 -> q ∈ l2 -> ~ p `prefix_of` q).
Proof.
  apply (remove_empty_folders_prunes 4
           (FileOrganizer_init [py "home"] [py "home"])
           [py "home"; py "empty"] music_world [(py "inner", Dir [])]).
  - reflexivity.
  - simpl. repeat split; repeat constructor.
    intros H. apply elem_of_nil in H. exact H.
  - simpl. lia.
Defined.

(** The pruner on [/home/empty], whose only entry is an empty directory:
    the entry is removed and [/home/empty] itself is left, empty. *)
Example prune_leaves_empty_root :
  exists w',
    remove_empty_folders 4 (FileOrganizer_init [py "home"] [py "home"])
      (Some [py "home"; py "empty"]) music_world
    = Returns tt w'
    /\ fs_lookup [py "home"; py "empty"] (disk w') = Some (Dir [])
    /\ syscalls w' = [EvRmdir [py "home"; py "empty"; py "inner"]].
Proof. eexists. split; [vm_compute; reflexivity|]. split; reflexivity. Qed.

(** The whole of [/home] pruned: the nested empty directories go, inner
    first. *)
Example prune_home :
  exists w',
    remove_empty_folders 4 (FileOrganizer_init [py "home"] [py "home"])
      (Some [py "home"]) music_world
    = Returns tt w'
    /\ fs_lookup [py "home"; py "empty"] (disk w') = None
    /\ syscalls w'
       = [EvRmdir [py "home"; py "empty"; py "inner"];
          EvRmdir [py "home"; py "empty"]].
Proof. eexists. split; [vm_compute; reflexivity|]. split; reflexivity. Qed.

(** The file relocator keeps the case of the extension. *)
Example move_song :
  exists w',
    move_file sample_lower sample_translit
      (FileOrganizer_init [py "home"] [py "home"])
      [py "home"; song_name] (py "Audio") music_world
    = Returns tt w'
    /\ fs_lookup [py "home"; py "Audio"; py "pisnja_1.MP3"] (disk w')
       = Some (File [])
    /\ fs_lookup [py "home"; py "Audio"; py "pisnja_1.mp3"] (disk w') = None.
Proof. eexists. split; [vm_compute; reflexivity|]. split; reflexivity. Qed.

(** ** Sample runs of the further properties *)

Lemma move_file_again_is_skipped_witness :
  exists w',
    move_file sample_lower (fun s => s)
      (FileOrganizer_init [py "home"] [py "home"])
      [py "home"; py "My Song.MP3"] (py "Audio") song_world
    = Returns tt w'
    /\ move_file sample_lower (fun s => s)
         (FileOrganizer_init [py "home"] [py "home"])
         [py "home"; py "Audio"; py "my_song.MP3"] (py "Audio") w'
       = Returns tt w'.
Proof.
  eexists. split; [vm_compute; reflexivity|].
  apply (move_file_again_is_skipped sample_lower (fun s => s)
           [py "home"] [py "home"] [py "home"; py "My Song.MP3"]
           (py "Audio") song_world _ []).
  - intros u _. reflexivity.
  - vm_compute. discriminate.
  - reflexivity.
  - reflexivity.
  - vm_compute. reflexivity.
Defined.

Lemma move_file_category_is_file_witness :
  move_file sample_lower sample_translit
    (FileOrganizer_init [py "home"] [py "home"])
    [py "home"; py "a.txt"] (py "Docs") clash_world
  = Raises NotADirectoryError clash_world.
Proof.
  apply (move_file_category_is_file sample_lower sample_translit
           [py "home"] [py "home"] [py "home"; py "a.txt"] (py "Docs")
           clash_world [] []).
  - reflexivity.
  - reflexivity.
Defined.

Lemma move_file_missing_source_witness :
  exists w',
    move_file sample_lower sample_translit
      (FileOrganizer_init [py "home"] [py "home"])
      [py "home"; py "ghost.txt"] (py "Docs") song_world
    = Raises FileNotFoundError w'
    /\ fs_lookup [py "home"; py "Docs"] (disk w') = Some (Dir [])
    /\ syscalls w' = syscalls song_world ++ [EvMkdir [py "home"; py "Docs"]]
    /\ stdout w' = stdout song_world.
Proof.
  apply (proj1 (move_file_missing_source sample_lower sample_translit
                  [py "home"] [py "home"] [py "home"; py "ghost.txt"]
                  (py "Docs") song_world
                  [(py "My Song.MP3", File []); (py "keep.txt", File [])]
                  eq_refl eq_refl eq_refl
                  ltac:(vm_compute; discriminate))).
  reflexivity.
Defined.

Lemma move_file_keeps_other_files_witness :
  exists w',
    final_world
      (move_file sample_lower sample_translit
         (FileOrganizer_init [py "home"] [py "home"])
         [py "home"; py "My Song.MP3"] (py "Audio") song_world)
    = Some w'
    /\ fs_lookup [py "home"; py "keep.txt"] (disk w') = Some (File []).
Proof.
  eexists. split; [vm_compute; reflexivity|].
  apply (move_file_keeps_other_files sample_lower sample_translit
           [py "home"] [py "home"] [py "home"; py "My Song.MP3"]
           (py "Audio") song_world _ [py "home"; py "keep.txt"] []).
  - intros es. vm_compute. discriminate.
  - vm_compute. reflexivity.
  - vm_compute. discriminate.
  - reflexivity.
Defined.

Lemma remove_empty_folders_bad_root_witness :
  remove_empty_folders 1 (FileOrganizer_init [py "home"] [py "home"])
    (Some [py "home"; py "keep.txt"]) song_world
  = Raises NotADirectoryError song_world.
Proof.
  apply (proj1 (remove_empty_folders_bad_root 0
                  (FileOrganizer_init [py "home"] [py "home"])
                  [py "home"; py "keep.txt"] song_world) []).
  reflexivity.
Defined.

Lemma remove_empty_folders_twice_witness :
  exists w',
    remove_empty_folders 4 (FileOrganizer_init [py "home"] [py "home"])
      (Some [py "home"; py "empty"]) music_world
    = Returns tt w'
    /\ remove_empty_folders 4 (FileOrganizer_init [py "home"] [py "home"])
         (Some [py "home"; py "empty"]) w'
       = Returns tt w'.
Proof.
  apply (remove_empty_folders_twice 4
           (FileOrganizer_init [py "home"] [py "home"])
           [py "home"; py "empty"] music_world [(py "inner", Dir [])]).
  - reflexivity.
  - simpl. repeat split; repeat constructor.
    intros H. apply elem_of_nil in H. exact H.
  - simpl. lia.
Defined.

Lemma remove_empty_folders_elsewhere_witness :
  exists w',
    remove_empty_folders 4 (FileOrganizer_init [py "home"] [py "home"])
      (Some [py "home"; py "empty"]) music_world
    = Returns tt w'
    /\ forall q,
        ~ [py "home"; py "empty"] `prefix_of` q ->
        ~ q `prefix_of` [py "home"; py "empty"] ->
        fs_lookup q (disk w') = fs_lookup q (disk music_world).
Proof.
  apply (remove_empty_folders_elsewhere 4
           (FileOrganizer_init [py "home"] [py "home"])
           [py "home"; py "empty"] music_world [(py "inner", Dir [])]).
  - reflexivity.
  - simpl. repeat split; repeat constructor.
    intros H. apply elem_of_nil in H. exact H.
  - simpl. lia.
Defined.

Lemma extract_step_success_witness :
  exists w',
    extract_step sample_lower working_unpack failing_rar
      [py "home"; py "Archives"] [py "home"; py "Archives"; py "bad.zip"]
      music_world
    = Returns tt w'
    /\ fs_lookup [py "home"; py "Archives"; py "bad.zip"] (disk w') = None
    /\ fs_lookup [py "home"; py "Archives"; py "bad"] (disk w')
       = Some (Dir [(py "a.txt", File [])])
    /\ stdout w' = stdout music_world
    /\ syscalls w'
       = [EvMkdir [py "home"; py "Archives"; py "bad"]]
         ++ [EvExtract [py "home"; py "Archives"; py "bad.zip"]
               [py "home"; py "Archives"; py "bad"];
             EvUnlink [py "home"; py "Archives"; py "bad.zip"]].
Proof.
  eapply (extract_step_success sample_lower working_unpack failing_rar
            [py "home"; py "Archives"]
            [py "home"; py "Archives"; py "bad.zip"] music_world
            (World
               (fs_put [py "home"; py "Archives"; py "bad"] (Dir [])
                  (disk music_world))
               [] [EvMkdir [py "home"; py "Archives"; py "bad"]])
            working_unpack []).
  - vm_compute. reflexivity.
  - reflexivity.
  - reflexivity.
  - intros [k Hk]. vm_compute in Hk. discriminate.
  - reflexivity.
Defined.

Lemma extract_loop_without_archives_dir_witness :
  extract_loop sample_lower failing_unpack failing_rar
    [py "home"; py "Archives"] [[py "home"; py "song.mp3"]] home_world
  = Raises FileNotFoundError home_world.
Proof.
  apply (extract_loop_without_archives_dir sample_lower failing_unpack
           failing_rar [py "home"; py "Archives"] [py "home"; py "song.mp3"]
           [] home_world).
  - reflexivity.
  - reflexivity.
Defined.

Lemma extract_loop_other_exception_witness :
  extract_loop sample_lower crashing_unpack failing_rar
    [py "home"; py "Archives"]
    [[py "home"; py "Archives"; py "bad.zip"]; [py "home"; song_name]]
    music_world
  = Raises (OtherError (py "BadZipFile"))
      (World
         (modify [py "home"; py "Archives"; py "bad"] (on_dir (fun _ => []))
            (fs_put [py "home"; py "Archives"; py "bad"] (Dir [])
               (disk music_world)))
         []
         ([EvMkdir [py "home"; py "Archives"; py "bad"]]
          ++ [EvExtract [py "home"; py "Archives"; py "bad.zip"]
                [py "home"; py "Archives"; py "bad"]])).
Proof.
  apply (extract_loop_other_exception sample_lower crashing_unpack failing_rar
           [py "home"; py "Archives"]
           [py "home"; py "Archives"; py "bad.zip"]
           [[py "home"; song_name]] music_world
           (World
              (fs_put [py "home"; py "Archives"; py "bad"] (Dir [])
                 (disk music_world))
              [] [EvMkdir [py "home"; py "Archives"; py "bad"]])
           crashing_unpack (OtherError (py "BadZipFile"))).
  - vm_compute. reflexivity.
  - reflexivity.
  - reflexivity.
  - discriminate.
  - discriminate.
Defined.

Lemma organize_files_without_files_witness :
  organize_files sample_lower sample_translit
    (FileOrganizer_init [py "nowhere"] [py "home"]) music_world
  = Returns tt music_world.
Proof.
  apply (organize_files_without_files sample_lower sample_translit
           [py "nowhere"] [py "home"] music_world).
  intros q data H. vm_compute in H. discriminate.
Defined.



Lemma run_presents_then_starts_bot_witness :
  ExtendedBot_run sample_bot_main [py "home"]
    (replicate 1
       (ConsoleInformationPresenter_present_information sample_json_dumps))
    (JSONDataLoader_load_data sample_json_load) bot_world
  = Returns tt
      (World (disk bot_world)
         [py "Address Book is empty.";
          py "Notes:" ++ [10%N] ++ py "{...}";
          py "Available Commands:" ++ [10%N] ++ py "'help - all commands'";
          py "bot started"]
         []).
Proof.
  apply (run_presents_then_starts_bot sample_json_load sample_json_dumps
           sample_bot_main [py "home"] 1 JNull
           (JObject [(py "name", JString (py "Ann"))]) bot_world).
  - reflexivity.
  - reflexivity.
Defined.

Lemma run_stops_on_directory_witness :
  ExtendedBot_run sample_bot_main [py "home"]
    [ConsoleInformationPresenter_present_information sample_json_dumps]
    (JSONDataLoader_load_data sample_json_load) broken_bot_world
  = Raises IsADirectoryError broken_bot_world.
Proof.
  apply (proj1 (run_stops_on_directory sample_json_load sample_bot_main
                  [py "home"]
                  [ConsoleInformationPresenter_present_information
                     sample_json_dumps]
                  broken_bot_world) []).
  reflexivity.
Defined.
